(** * Movie rental system: the rental lifecycle of [models/rental_model.py]

    A shallow embedding of [RentalModel] (rent, return, late fees, overdue
    promotion and the two rental reports), of
    [MovieModel.update_stock_quantity], and of the part of the MySQL schema of
    [db/setup_database.py] these methods read and write.

    Conventions of the embedding.
    - A table with a primary key is a finite map from the key to the row; the
      [returns] table, which is only ever appended to, is a list of rows.
    - A [DATE] or [datetime.date] is its proleptic Gregorian ordinal
      ([date.toordinal()]), so that [(a - b).days] is a subtraction in [Z] and
      [a < CURDATE()] is [a < today].  The clock is a parameter [today] of
      every operation that reads it.
    - A [DECIMAL(_,2)] amount is held in hundredths: [rental_rate = 2.99] is
      [299].  [rental_rate * rental_days] is a product of a [Decimal] and an
      [int], which Python computes exactly.  [late_fee] and [total_paid] are
      computed in binary64 and reach the database, and the message, rounded
      to two places; the model holds them in hundredths as well.  Module
      [Binary64] has the float expressions as they are written and the
      rounding, and section "Binary64 and hundredths" relates the two.
    - A method returns the tuple of the source, [(success, message, data)],
      paired with the database it leaves behind.  The formatted message
      strings are constructors that carry the values the f-string prints.
    - The methods are modelled on an established connection; a statement
      refused by the server raises [mysql.connector.Error], which the
      [except] branch turns into a rollback and a failure tuple. *)

From Stdlib Require Import ZArith String Lia.
From Stdlib Require Import Floats.
From stdpp Require Import base gmap list strings sorting.

Open Scope Z_scope.

(** ** Dates *)

Module Calendar.

(** [datetime._is_leap] *)
Definition is_leap (year : Z) : bool :=
  (year mod 4 =? 0) && (negb (year mod 100 =? 0) || (year mod 400 =? 0)).

(** [datetime._days_before_year]: days before January 1st of [year]. *)
Definition days_before_year (year : Z) : Z :=
  let y := year - 1 in
  y * 365 + y / 4 - y / 100 + y / 400.

(** [datetime._DAYS_BEFORE_MONTH] *)
Definition DAYS_BEFORE_MONTH (month : Z) : Z :=
  match month with
  | 1 => 0 | 2 => 31 | 3 => 59 | 4 => 90 | 5 => 120 | 6 => 151
  | 7 => 181 | 8 => 212 | 9 => 243 | 10 => 273 | 11 => 304 | 12 => 334
  | _ => -1
  end.

(** [datetime._days_before_month] *)
Definition days_before_month (year month : Z) : Z :=
  DAYS_BEFORE_MONTH month
  + (if (2 <? month) && is_leap year then 1 else 0).

(** [datetime._ymd2ord], the value of [date(year, month, day).toordinal()] *)
Definition ymd2ord (year month day : Z) : Z :=
  days_before_year year + days_before_month year month + day.

End Calendar.

Abbreviation date := Z (only parsing).

(** ** Schema *)

(** [rental_status ENUM('active', 'returned', 'overdue')] *)
Inductive status : Set := active | returned | overdue.

#[global] Instance status_eq_dec : EqDecision status.
Proof. solve_decision. Defined.

(** [customers]: the column the rental model reads. *)
Record customer : Set := Customer { is_active : bool }.

(** [movies] *)
Record movie : Set := Movie {
  title : string;
  rental_rate : Z;          (* DECIMAL(5,2), in hundredths *)
  stock_quantity : Z;       (* INT *)
  total_copies : Z;         (* INT *)
  is_available : bool       (* BOOLEAN *)
}.

(** [rentals] *)
Record rental : Set := Rental {
  customer_id : Z;
  movie_id : Z;
  employee_id : Z;
  rental_date : date;               (* TIMESTAMP DEFAULT CURRENT_TIMESTAMP *)
  due_date : date;
  actual_return_date : option date;
  total_charge : Z;                 (* DECIMAL(8,2), in hundredths *)
  late_fee : Z;                     (* DECIMAL(8,2), in hundredths *)
  rental_status : status
}.

(** [returns] *)
Record return_row : Set := ReturnRow {
  ret_rental_id : Z;
  return_date : date;
  late_days : Z;
  ret_late_fee : Z;                 (* DECIMAL(8,2), in hundredths *)
  total_paid : Z;                   (* DECIMAL(8,2), in hundredths *)
  processed_by : Z
}.

(** The database.  Of [employees] only the key is referenced. *)
Record db : Type := Db {
  customers : gmap Z customer;
  movies : gmap Z movie;
  employees : gset Z;
  rentals : gmap Z rental;
  returns : list return_row
}.

Definition set_movies (f : gmap Z movie → gmap Z movie) (s : db) : db :=
  Db (customers s) (f (movies s)) (employees s) (rentals s) (returns s).

Definition set_rentals (f : gmap Z rental → gmap Z rental) (s : db) : db :=
  Db (customers s) (movies s) (employees s) (f (rentals s)) (returns s).

Definition set_returns (f : list return_row → list return_row) (s : db) : db :=
  Db (customers s) (movies s) (employees s) (rentals s) (f (returns s)).

(** ** SQL statements

    A statement either yields the new database or is refused by the server.
    The server refuses a row whose foreign key has no parent row and, in
    strict SQL mode (the server default), a value outside its column type.
    A [CHECK] clause of the schema is listed where a method can write a value
    that violates it, which is [update_stock_quantity] alone: on a database
    whose rows satisfy the clauses, the values that the rental model writes
    satisfy them too. *)

Inductive db_error : Set :=
  | ForeignKeyFails      (* ER_NO_REFERENCED_ROW_2 *)
  | OutOfRange           (* ER_WARN_DATA_OUT_OF_RANGE *)
  | CheckFails.          (* ER_CHECK_CONSTRAINT_VIOLATED *)

(** [DECIMAL(8,2)] holds at most 999999.99 in absolute value. *)
Definition decimal_8_2 (v : Z) : Prop := -99999999 ≤ v ≤ 99999999.

(** [INT] is a signed 32-bit integer. *)
Definition sql_int (v : Z) : Prop := -2147483648 ≤ v ≤ 2147483647.

(** [AUTO_INCREMENT] of [rentals.rental_id]: one more than the largest key;
    the program never deletes a rental. *)
Definition max_rental_id (t : gmap Z rental) : Z :=
  foldr Z.max 0 (fst <$> map_to_list t).

Definition lastrowid (t : gmap Z rental) : Z := max_rental_id t + 1.

(** [INSERT INTO rentals (customer_id, movie_id, employee_id, due_date,
    total_charge) VALUES (...)]; the other columns take their defaults. *)
Definition insert_rental (today : date) (customer_id movie_id employee_id : Z)
    (due_date : date) (total_charge : Z) (s : db) : db_error + (Z * db) :=
  if decide (is_Some (customers s !! customer_id)
             ∧ is_Some (movies s !! movie_id)
             ∧ employee_id ∈ employees s) then
    if decide (decimal_8_2 total_charge) then
      let rental_id := lastrowid (rentals s) in
      let row := Rental customer_id movie_id employee_id today due_date None
                        total_charge 0 active in
      inr (rental_id, set_rentals (insert rental_id row) s)
    else inl OutOfRange
  else inl ForeignKeyFails.

(** [UPDATE movies SET stock_quantity = %s, is_available = %s
    WHERE movie_id = %s] *)
Definition update_movie_stock (movie_id new_stock : Z) (is_available_new : bool)
    (s : db) : db_error + db :=
  match movies s !! movie_id with
  | None => inr s
  | Some m =>
      if decide (sql_int new_stock) then
        inr (set_movies
               (insert movie_id
                  (Movie (title m) (rental_rate m) new_stock (total_copies m)
                         is_available_new)) s)
      else inl OutOfRange
  end.

(** [UPDATE rentals SET actual_return_date = %s, late_fee = %s,
    rental_status = 'returned' WHERE rental_id = %s] *)
Definition update_rental_returned (rental_id : Z) (return_date : date)
    (late_fee : Z) (s : db) : db_error + db :=
  match rentals s !! rental_id with
  | None => inr s
  | Some r =>
      if decide (decimal_8_2 late_fee) then
        inr (set_rentals
               (insert rental_id
                  (Rental (customer_id r) (movie_id r) (employee_id r)
                          (rental_date r) (due_date r) (Some return_date)
                          (total_charge r) late_fee returned)) s)
      else inl OutOfRange
  end.

(** [INSERT INTO returns (rental_id, return_date, late_days, late_fee,
    total_paid, processed_by) VALUES (...)] *)
Definition insert_return (row : return_row) (s : db) : db_error + db :=
  if decide (is_Some (rentals s !! ret_rental_id row)
             ∧ processed_by row ∈ employees s) then
    if decide (sql_int (late_days row) ∧ decimal_8_2 (ret_late_fee row)
               ∧ decimal_8_2 (total_paid row)) then
      inr (set_returns (λ t, t ++ [row]) s)
    else inl OutOfRange
  else inl ForeignKeyFails.

(** ** [RentalModel] *)

(** The instance attributes set by [__init__]; [db_config] is the connection
    the model runs on. *)
Record RentalModel : Set := { late_fee_per_day : Z }.

(** [self.late_fee_per_day = 2.00] *)
Definition __init__ : RentalModel := {| late_fee_per_day := 200 |}.

(** *** [rent_movie] *)

Inductive rent_message : Set :=
  | CustomerNotFound      (* "Customer not found" *)
  | CustomerInactive      (* "Customer account is inactive" *)
  | MovieNotFound         (* "Movie not found" *)
  | MovieUnavailable      (* "Movie is not available for rental" *)
  | InvalidDueDate        (* "Due date must be in the future" *)
  | RentFailed (e : db_error)                    (* "Failed to rent movie: ..." *)
  | Rented (title : string) (total_charge : Z).  (* "Movie '...' rented successfully. Charge: $..." *)

Definition rent_result : Type := bool * rent_message * option Z.

(** The local variables that the checks of lines 51-80 hand to the
    transaction of lines 83-105. *)
Record rent_locals : Set := RentLocals {
  local_title : string;
  local_stock_quantity : Z;
  local_total_charge : Z
}.

(** Lines 51-80: the two [SELECT]s and the four checks, in source order. *)
Definition rent_checks (today : date) (customer_id movie_id : Z)
    (due_date : date) (s : db) : rent_message + rent_locals :=
  match customers s !! customer_id with
  | None => inl CustomerNotFound
  | Some customer_result =>
      if negb (is_active customer_result) then inl CustomerInactive
      else
        match movies s !! movie_id with
        | None => inl MovieNotFound
        | Some movie_result =>
            if negb (is_available movie_result)
               || bool_decide (stock_quantity movie_result ≤ 0)
            then inl MovieUnavailable
            else
              let rental_date := today in
              let rental_days := due_date - rental_date in
              if bool_decide (rental_days ≤ 0) then inl InvalidDueDate
              else
                let total_charge := rental_rate movie_result * rental_days in
                inr (RentLocals (title movie_result)
                                (stock_quantity movie_result) total_charge)
        end
  end.

(** Lines 83-105: the transaction.  It writes the stock it was handed, less
    one; [s] is the database at its start, to which a rollback returns. *)
Definition rent_transaction (today : date)
    (customer_id movie_id employee_id : Z) (due_date : date)
    (v : rent_locals) (s : db) : rent_result * db :=
  match insert_rental today customer_id movie_id employee_id due_date
                      (local_total_charge v) s with
  | inl e => ((false, RentFailed e, None), s)
  | inr (rental_id, s1) =>
      let new_stock := local_stock_quantity v - 1 in
      let is_available_new := bool_decide (0 < new_stock) in
      match update_movie_stock movie_id new_stock is_available_new s1 with
      | inl e => ((false, RentFailed e, None), s)
      | inr s2 =>
          ((true, Rented (local_title v) (local_total_charge v),
            Some rental_id), s2)
      end
  end.

Definition rent_movie (today : date) (customer_id movie_id employee_id : Z)
    (due_date : date) (s : db) : rent_result * db :=
  match rent_checks today customer_id movie_id due_date s with
  | inl message => ((false, message, None), s)
  | inr v =>
      rent_transaction today customer_id movie_id employee_id due_date v s
  end.

(** *** [return_movie] *)

(** The [return_data] dictionary; the two floats to two places, as the
    message prints them. *)
Record return_data : Set := ReturnData {
  data_rental_id : Z;
  data_movie_title : string;
  data_return_date : date;
  data_late_days : Z;
  data_late_fee : Z;                (* float *)
  data_original_charge : Z;         (* Decimal *)
  data_total_paid : Z               (* float *)
}.

Inductive return_message : Set :=
  | RentalNotFound        (* "Rental not found or already returned" *)
  | ReturnFailed (e : db_error)                  (* "Failed to return movie: ..." *)
  | ReturnedLate (title : string) (late_days late_fee total_paid : Z)
  | ReturnedOnTime (title : string) (total_paid : Z).

Definition return_result : Type := bool * return_message * option return_data.

(** Lines 145-153: [SELECT ... FROM rentals r JOIN movies m ON r.movie_id =
    m.movie_id WHERE r.rental_id = %s AND r.rental_status = 'active'] *)
Definition select_rental (rental_id : Z) (s : db) : option (rental * movie) :=
  match rentals s !! rental_id with
  | None => None
  | Some r =>
      if decide (rental_status r = active) then
        match movies s !! movie_id r with
        | None => None
        | Some m => Some (r, m)
        end
      else None
  end.

Definition return_movie (self : RentalModel) (today : date)
    (rental_id employee_id : Z) (s : db) : return_result * db :=
  match select_rental rental_id s with
  | None => ((false, RentalNotFound, None), s)
  | Some (rental, m) =>
      let return_date := today in
      let due_date := due_date rental in
      let late_days := Z.max 0 (return_date - due_date) in
      let late_fee := late_days * late_fee_per_day self in
      let total_paid := total_charge rental + late_fee in
      match update_rental_returned rental_id return_date late_fee s with
      | inl e => ((false, ReturnFailed e, None), s)
      | inr s1 =>
          match insert_return
                  (ReturnRow rental_id today late_days late_fee total_paid
                             employee_id) s1 with
          | inl e => ((false, ReturnFailed e, None), s)
          | inr s2 =>
              let new_stock := stock_quantity m + 1 in
              match update_movie_stock (movie_id rental) new_stock true s2 with
              | inl e => ((false, ReturnFailed e, None), s)
              | inr s3 =>
                  let data :=
                    ReturnData rental_id (title m) return_date late_days
                               late_fee (total_charge rental) total_paid in
                  let message :=
                    if bool_decide (0 < late_days)
                    then ReturnedLate (title m) late_days late_fee total_paid
                    else ReturnedOnTime (title m) total_paid in
                  ((true, message, Some data), s3)
              end
          end
      end
  end.

(** *** [calculate_late_fee] *)

Definition calculate_late_fee (self : RentalModel) (today : date)
    (due_date : date) (return_date : option date) : Z * Z :=
  let return_date :=
    match return_date with None => today | Some d => d end in
  let late_days := Z.max 0 (return_date - due_date) in
  let late_fee := late_days * late_fee_per_day self in
  (late_days, late_fee).

(** *** [update_overdue_statuses] *)

(** [WHERE rental_status = 'active' AND due_date < CURDATE()] *)
Definition past_due (today : date) (r : rental) : Prop :=
  rental_status r = active ∧ due_date r < today.

#[global] Instance past_due_dec today r : Decision (past_due today r).
Proof. unfold past_due. apply _. Defined.

(** [SET rental_status = 'overdue'] on one row. *)
Definition set_overdue (r : rental) : rental :=
  Rental (customer_id r) (movie_id r) (employee_id r) (rental_date r)
         (due_date r) (actual_return_date r) (total_charge r) (late_fee r)
         overdue.

Definition promote_row (today : date) (r : rental) : rental :=
  if decide (past_due today r) then set_overdue r else r.

Inductive overdue_message : Set :=
  | UpdatedOverdue (updated_count : Z).   (* "Updated ... rentals to overdue" *)

(** [cursor.rowcount] of the [UPDATE]: the rows of the [WHERE] clause, each
    of which the statement changes. *)
Definition overdue_rowcount (today : date) (s : db) : Z :=
  Z.of_nat (size (filter (λ kr, past_due today kr.2) (rentals s))).

Definition update_overdue_statuses (today : date) (s : db)
    : (bool * overdue_message * Z) * db :=
  let updated_count := overdue_rowcount today s in
  ((true, UpdatedOverdue updated_count, updated_count),
   set_rentals (fmap (promote_row today)) s).

(** *** Reports *)

(** The inner joins of both reports: [JOIN customers c ... JOIN movies m ...
    JOIN employees e ...] keep a rental whose three parent rows exist. *)
Definition joined (s : db) (r : rental) : Prop :=
  is_Some (customers s !! customer_id r)
  ∧ is_Some (movies s !! movie_id r)
  ∧ employee_id r ∈ employees s.

#[global] Instance joined_dec s r : Decision (joined s r).
Proof. unfold joined. apply _. Defined.

Inductive report_message : Set :=
  | FoundRentals (n : nat)           (* "Found ... rentals" *)
  | FoundOverdueRentals (n : nat).   (* "Found ... overdue rentals" *)

(** [if customer_id:] and [if movie_id:] add a condition for a value that is
    neither [None] nor [0]. *)
Definition id_filter (param : option Z) (column : Z) : Prop :=
  match param with
  | Some k => if decide (k = 0) then True else column = k
  | None => True
  end.

#[global] Instance id_filter_dec param column : Decision (id_filter param column).
Proof. unfold id_filter. destruct param; [case_decide|]; apply _. Defined.

Definition status_filter (param : option status) (column : status) : Prop :=
  match param with
  | Some st => column = st
  | None => True
  end.

#[global] Instance status_filter_dec param column :
  Decision (status_filter param column).
Proof. unfold status_filter. destruct param; apply _. Defined.

(** [ORDER BY r.rental_date DESC] and [ORDER BY r.due_date ASC] *)
Definition rental_date_desc (a b : Z * rental) : Prop :=
  rental_date b.2 ≤ rental_date a.2.

Definition due_date_asc (a b : Z * rental) : Prop :=
  due_date a.2 ≤ due_date b.2.

#[global] Instance rental_date_desc_dec : RelDecision rental_date_desc.
Proof. intros a b. unfold rental_date_desc. apply _. Defined.

#[global] Instance due_date_asc_dec : RelDecision due_date_asc.
Proof. intros a b. unfold due_date_asc. apply _. Defined.

(** [search_rentals(customer_id, movie_id, status)], with [start_date] and
    [end_date] at their default [None]; rows are [(rental_id, rental)]. *)
Definition search_rentals (customer_id' movie_id' : option Z)
    (status' : option status) (s : db)
    : bool * report_message * list (Z * rental) :=
  let rentals :=
    merge_sort rental_date_desc
      (map_to_list
         (filter (λ kr, joined s kr.2
                        ∧ id_filter customer_id' (customer_id kr.2)
                        ∧ id_filter movie_id' (movie_id kr.2)
                        ∧ status_filter status' (rental_status kr.2))
                 (rentals s))) in
  (true, FoundRentals (length rentals), rentals).

Definition get_active_rentals (s : db)
    : bool * report_message * list (Z * rental) :=
  search_rentals None None (Some active) s.

(** [get_overdue_rentals]; rows are [(rental_id, rental, days_overdue)] with
    [days_overdue = DATEDIFF(CURDATE(), r.due_date)]. *)
Definition get_overdue_rentals (today : date) (s : db)
    : bool * report_message * list (Z * rental * Z) :=
  let rows :=
    merge_sort due_date_asc
      (map_to_list
         (filter (λ kr, joined s kr.2 ∧ past_due today kr.2) (rentals s))) in
  let rentals := (λ kr : Z * rental, (kr, today - due_date kr.2)) <$> rows in
  (true, FoundOverdueRentals (length rentals), rentals).

(** ** [MovieModel.update_stock_quantity] *)

#[global] Instance movie_eq_dec : EqDecision movie.
Proof. solve_decision. Defined.

Inductive stock_message : Set :=
  | StockUpdated          (* "Stock quantity updated successfully" *)
  | StockMovieNotFound    (* "Movie not found" *)
  | StockFailed (e : db_error).

(** [UPDATE movies SET stock_quantity = %s, is_available = CASE WHEN %s > 0
    THEN TRUE ELSE FALSE END WHERE movie_id = %s], under
    [CHECK (stock_quantity >= 0)]; [cursor.rowcount] counts the rows the
    statement changed. *)
Definition update_stock_quantity (movie_id new_quantity : Z) (s : db)
    : (bool * stock_message) * db :=
  match movies s !! movie_id with
  | None => ((false, StockMovieNotFound), s)
  | Some m =>
      if decide (sql_int new_quantity) then
        if decide (0 ≤ new_quantity) then
          let m' := Movie (title m) (rental_rate m) new_quantity
                          (total_copies m) (bool_decide (0 < new_quantity)) in
          if decide (m' = m) then ((false, StockMovieNotFound), s)
          else ((true, StockUpdated), set_movies (insert movie_id m') s)
        else ((false, StockFailed CheckFails), s)
      else ((false, StockFailed OutOfRange), s)
  end.

(** ** Sequences of calls *)

(** The three mutating operations of the rental model, under the names of
    the interface. *)
Inductive call : Set :=
  | rent (customer_id movie_id employee_id : Z) (due_date : date)
  | returnRental (rental_id employee_id : Z)
  | promoteOverdue.

(** The database after one call made on day [today]. *)
Definition after (self : RentalModel) (today : date) (c : call) (s : db) : db :=
  match c with
  | rent customer_id movie_id employee_id due_date =>
      (rent_movie today customer_id movie_id employee_id due_date s).2
  | returnRental rental_id employee_id =>
      (return_movie self today rental_id employee_id s).2
  | promoteOverdue => (update_overdue_statuses today s).2
  end.

(** The databases that calls of the rental model lead to from [s0], each
    call on a day of its own. *)
Inductive reachable (self : RentalModel) (s0 : db) : db → Prop :=
  | reachable_start : reachable self s0 s0
  | reachable_call s today c :
      reachable self s0 s → reachable self s0 (after self today c s).

(** [n] rent/return pairs on movie [m], every call succeeding: each pair
    rents [m] and then returns a rental of [m]. *)
Inductive rent_return_pairs (self : RentalModel) (m : Z)
    : nat → db → db → Prop :=
  | pairs_done s : rent_return_pairs self m 0 s s
  | pairs_more n s s1 s2 s3 day1 day2 customer_id employee_id due_date
               message1 new_id rental_id employee_id' row message2 data :
      rent_movie day1 customer_id m employee_id due_date s
        = ((true, message1, Some new_id), s1) →
      rentals s1 !! rental_id = Some row →
      movie_id row = m →
      return_movie self day2 rental_id employee_id' s1
        = ((true, message2, Some data), s2) →
      rent_return_pairs self m n s2 s3 →
      rent_return_pairs self m (S n) s s3.

(** ** Binary64

    Lines 161-163 as Python evaluates them: [late_days] is an [int],
    [self.late_fee_per_day] a [float], and [rental['total_charge']] a
    [Decimal] that [float()] rounds to the nearest binary64 number. *)

Module Binary64.

(** [float(n)] for an [int] [n] with [0 ≤ n < 2 ^ 63]. *)
Definition of_int (n : Z) : float := PrimFloat.of_uint63 (Uint63.of_Z n).

(** [float(d)] for a [Decimal] [d] of [v] hundredths: the correctly rounded
    quotient of two numbers that binary64 holds exactly. *)
Definition of_decimal (v : Z) : float := (of_int v / 100)%float.

Definition late_fee_per_day : float := 2%float.

Definition late_fee (late_days : Z) : float :=
  (of_int late_days * late_fee_per_day)%float.

Definition total_paid (total_charge late_days : Z) : float :=
  (of_decimal total_charge + late_fee late_days)%float.

(** A float rounded to two places, half away from zero, in hundredths: what
    a [DECIMAL(8,2)] column keeps of it and what [:.2f] prints of it, for a
    float that is not halfway between two hundredths. *)
Definition to_decimal (x : float) : Z :=
  match Prim2SF x with
  | S754_finite negative m e =>
      let n := Z.pos m * 100 in
      let q := if decide (0 ≤ e) then n * 2 ^ e
               else (2 * n + 2 ^ (- e)) / (2 * 2 ^ (- e)) in
      if negative then - q else q
  | _ => 0
  end.

(** The floats of lines 162-163, rounded, are the hundredths of the model
    at its rate of 200 a day. *)
Definition agrees (total_charge late_days : Z) : bool :=
  bool_decide (to_decimal (late_fee late_days) = late_days * 200)
  && bool_decide (to_decimal (total_paid total_charge late_days)
                  = total_charge + late_days * 200).

Definition agrees_below (max_charge max_days : Z) : bool :=
  forallb (λ total_charge, forallb (agrees total_charge) (seqZ 0 max_days))
          (seqZ 0 max_charge).

End Binary64.

(** ** Two desks

    [rent_movie] holds no lock between its checks and its transaction: the
    [SELECT] of line 60 is a plain read and line 97 writes a stock computed
    from it.  [rent_movie_in_turn] is two calls of which the first has
    committed before the second begins; [rent_movie_overlapped] is two calls,
    on two connections, whose checks have both run before either
    transaction. *)

Record rent_args : Set := RentArgs {
  arg_customer_id : Z;
  arg_movie_id : Z;
  arg_employee_id : Z;
  arg_due_date : date
}.

Definition rent_movie_in_turn (today : date) (a b : rent_args) (s : db)
    : rent_result * rent_result * db :=
  let '(result_a, s1) :=
    rent_movie today (arg_customer_id a) (arg_movie_id a) (arg_employee_id a)
               (arg_due_date a) s in
  let '(result_b, s2) :=
    rent_movie today (arg_customer_id b) (arg_movie_id b) (arg_employee_id b)
               (arg_due_date b) s1 in
  (result_a, result_b, s2).

(** The rest of a call whose checks have returned [checked]. *)
Definition rent_resume (today : date) (a : rent_args)
    (checked : rent_message + rent_locals) (s : db) : rent_result * db :=
  match checked with
  | inl message => ((false, message, None), s)
  | inr v =>
      rent_transaction today (arg_customer_id a) (arg_movie_id a)
                       (arg_employee_id a) (arg_due_date a) v s
  end.

Definition rent_movie_overlapped (today : date) (a b : rent_args) (s : db)
    : rent_result * rent_result * db :=
  let checked_a :=
    rent_checks today (arg_customer_id a) (arg_movie_id a) (arg_due_date a) s in
  let checked_b :=
    rent_checks today (arg_customer_id b) (arg_movie_id b) (arg_due_date b) s in
  let '(result_a, s1) := rent_resume today a checked_a s in
  let '(result_b, s2) := rent_resume today b checked_b s1 in
  (result_a, result_b, s2).

(** ** Counting rows *)

(** What a row adds to [COUNT( * )] under a [WHERE] clause [P]. *)
Definition count_if {A : Type} (P : Z * A → Prop) `{!∀ kx, Decision (P kx)}
    (kx : Z * A) : nat :=
  if decide (P kx) then 1%nat else 0%nat.

(** ** Inventory conditions *)

(** [0 ≤ stock_quantity] and [is_available ⇔ stock_quantity > 0] *)
Definition movie_consistent (m : movie) : Prop :=
  0 ≤ stock_quantity m ∧ (is_available m ↔ 0 < stock_quantity m).

Definition movies_consistent (s : db) : Prop :=
  map_Forall (λ _ m, movie_consistent m) (movies s).

(** [stock_quantity ≤ total_copies] *)
Definition within_total (m : movie) : Prop :=
  stock_quantity m ≤ total_copies m.

Definition stock_within_total (s : db) : Prop :=
  map_Forall (λ _ m, within_total m) (movies s).

(** The copies of movie [id] that are out: its rentals in status [active],
    the ones [return_movie] accepts. *)
Definition out_on_rental (id : Z) (r : rental) : Prop :=
  movie_id r = id ∧ rental_status r = active.

Definition copies_out (id : Z) (s : db) : Z :=
  Z.of_nat (size (filter (λ kr, out_on_rental id kr.2) (rentals s))).

(** Every copy on the shelf or out is one of the [total_copies]. *)
Definition copies_accounted (s : db) : Prop :=
  map_Forall (λ id m, stock_quantity m + copies_out id s ≤ total_copies m)
             (movies s).

Definition stock_of (id : Z) (s : db) : option Z :=
  stock_quantity <$> movies s !! id.

(** The [returns] rows of one rental. *)
Definition returns_of (rental_id : Z) (s : db) : list return_row :=
  filter (λ row, ret_rental_id row = rental_id) (returns s).

#[global] Instance movie_consistent_dec m : Decision (movie_consistent m).
Proof. unfold movie_consistent. apply _. Defined.

#[global] Instance movies_consistent_dec s : Decision (movies_consistent s).
Proof. unfold movies_consistent. apply _. Defined.

#[global] Instance stock_within_total_dec s : Decision (stock_within_total s).
Proof. unfold stock_within_total, within_total. apply _. Defined.

#[global] Instance copies_accounted_dec s : Decision (copies_accounted s).
Proof. unfold copies_accounted. apply _. Defined.

(** ** Sample data

    The rows of [insert_sample_data] in [db/setup_database.py], the default
    administrator as employee 1, and January 3rd 2024 as a first day. *)

Module Sample.

Definition day : date := Calendar.ymd2ord 2024 1 3.

Definition store : db :=
  Db {[ 1 := Customer true; 2 := Customer true; 3 := Customer true ]}
     {[ 1 := Movie "The Shawshank Redemption" 299 5 5 true;
        2 := Movie "The Godfather" 349 3 3 true;
        3 := Movie "The Dark Knight" 399 4 4 true;
        4 := Movie "Pulp Fiction" 299 2 2 true;
        5 := Movie "Forrest Gump" 249 6 6 true ]}
     {[ 1 ]} ∅ [].

(** Customer 1 rents The Shawshank Redemption for a week. *)
Definition rented : db := (rent_movie day 1 1 1 (day + 7) store).2.

(** Ten days later the sweep finds the rental past due. *)
Definition swept : db := (update_overdue_statuses (day + 10) rented).2.

(** A store with one copy of Pulp Fiction left. *)
Definition last_copy : db := (rent_movie day 2 4 1 (day + 3) store).2.

End Sample.

(** * Further operations

    The other methods that read or write the tables of the rental model:
    [MovieModel.delete_movie], [MovieModel.get_movie_by_id],
    [CustomerModel.delete_customer],
    [CustomerModel.get_customer_rental_history], the rows that
    [ReportExporter.export_overdue_rentals] puts on its sheet, and the
    charge that the rent form previews. *)

Definition set_customers (f : gmap Z customer → gmap Z customer) (s : db) : db :=
  Db (f (customers s)) (movies s) (employees s) (rentals s) (returns s).

(** [rental_status IN ('active', 'overdue')] *)
Definition outstanding (r : rental) : Prop :=
  rental_status r = active ∨ rental_status r = overdue.

#[global] Instance outstanding_dec r : Decision (outstanding r).
Proof. unfold outstanding. apply _. Defined.

(** ** [MovieModel.delete_movie] *)

Inductive delete_movie_message : Set :=
  | MovieDeleted                          (* "Movie deleted successfully" *)
  | MovieHasRentals (active_rentals : Z)  (* "Cannot delete movie. It has ... active rental(s)." *)
  | DeleteMovieNotFound                   (* "Movie not found" *)
  | DeleteMovieFailed.                    (* "Failed to delete movie: ..." *)

(** [SELECT COUNT( * ) FROM rentals WHERE movie_id = %s AND rental_status IN
    ('active', 'overdue')] *)
Definition movie_active_rentals (movie_id' : Z) (s : db) : Z :=
  Z.of_nat (size (filter (λ kr : Z * rental,
                            movie_id kr.2 = movie_id' ∧ outstanding kr.2)
                         (rentals s))).

(** [DELETE FROM movies WHERE movie_id = %s] deletes no row when there is no
    such movie, and is refused (ER_ROW_IS_REFERENCED_2) when a rental refers
    to the movie: [FOREIGN KEY (movie_id) REFERENCES movies(movie_id) ON
    DELETE RESTRICT]. *)
Definition delete_movie (movie_id' : Z) (s : db)
    : (bool * delete_movie_message) * db :=
  let active_rentals := movie_active_rentals movie_id' s in
  if decide (0 < active_rentals) then
    ((false, MovieHasRentals active_rentals), s)
  else
    match movies s !! movie_id' with
    | None => ((false, DeleteMovieNotFound), s)
    | Some _ =>
        if decide (map_Exists (λ _ r, movie_id r = movie_id') (rentals s))
        then ((false, DeleteMovieFailed), s)
        else ((true, MovieDeleted), set_movies (delete movie_id') s)
    end.

(** ** [CustomerModel.delete_customer] *)

Inductive delete_customer_message : Set :=
  | CustomerDeactivated                      (* "Customer deactivated successfully" *)
  | CustomerHasRentals (active_rentals : Z)  (* "Cannot delete customer. They have ... active rental(s)." *)
  | DeleteCustomerNotFound.                  (* "Customer not found" *)

(** [SELECT COUNT( * ) FROM rentals WHERE customer_id = %s AND rental_status
    IN ('active', 'overdue')] *)
Definition customer_active_rentals (customer_id' : Z) (s : db) : Z :=
  Z.of_nat (size (filter (λ kr : Z * rental,
                            customer_id kr.2 = customer_id' ∧ outstanding kr.2)
                         (rentals s))).

(** [UPDATE customers SET is_active = FALSE WHERE customer_id = %s];
    [cursor.rowcount] counts the rows the statement changed, none for a
    customer who is inactive already. *)
Definition delete_customer (customer_id' : Z) (s : db)
    : (bool * delete_customer_message) * db :=
  let active_rentals := customer_active_rentals customer_id' s in
  if decide (0 < active_rentals) then
    ((false, CustomerHasRentals active_rentals), s)
  else
    match customers s !! customer_id' with
    | None => ((false, DeleteCustomerNotFound), s)
    | Some c =>
        if is_active c then
          ((true, CustomerDeactivated),
           set_customers (insert customer_id' (Customer false)) s)
        else ((false, DeleteCustomerNotFound), s)
    end.

(** ** [CustomerModel.get_customer_rental_history]

    [FROM rentals r JOIN movies m ... JOIN employees e ... WHERE
    r.customer_id = %s ORDER BY r.rental_date DESC]; rows are
    [(rental_id, rental)]. *)
Definition get_customer_rental_history (customer_id' : Z) (s : db)
    : bool * report_message * list (Z * rental) :=
  let rentals :=
    merge_sort rental_date_desc
      (map_to_list
         (filter (λ kr : Z * rental,
                    (is_Some (movies s !! movie_id kr.2)
                     ∧ employee_id kr.2 ∈ employees s)
                    ∧ customer_id kr.2 = customer_id')
                 (rentals s))) in
  (true, FoundRentals (length rentals), rentals).

(** ** [ReportExporter.export_overdue_rentals]

    Lines 97-119: the rows of the sheet, with the columns that are computed
    ([Days Overdue], [Late Fee]) and the key; writing the file is left out,
    and the result carries the rows where the source has the file path. *)

Inductive export_message : Set :=
  | NoOverdueRentalsFound   (* "No overdue rentals found" *)
  | ReportExported.         (* "Report exported successfully: ..." *)

Record overdue_sheet_row : Set := OverdueSheetRow {
  sheet_rental_id : Z;
  sheet_days_overdue : Z;
  sheet_late_fee : Z         (* days_overdue * 2.00, in hundredths *)
}.

Definition overdue_sheet_row_of (today : date) (row : Z * rental * Z)
    : overdue_sheet_row :=
  let days_overdue := today - due_date row.1.2 in
  let late_fee := days_overdue * 200 in
  OverdueSheetRow row.1.1 days_overdue late_fee.

Definition export_overdue_rentals (today : date) (s : db)
    : bool * export_message * list overdue_sheet_row :=
  let rentals := (get_overdue_rentals today s).2 in
  match rentals with
  | [] => (false, NoOverdueRentalsFound, [])
  | _ => (true, ReportExported, overdue_sheet_row_of today <$> rentals)
  end.

(** ** [MovieModel.get_movie_by_id] *)

Inductive get_movie_message : Set :=
  | MovieFound             (* "Movie found" *)
  | GetMovieNotFound.      (* "Movie not found" *)

Definition get_movie_by_id (movie_id' : Z) (s : db)
    : bool * get_movie_message * option movie :=
  match movies s !! movie_id' with
  | None => (false, GetMovieNotFound, None)
  | Some movie => (true, MovieFound, Some movie)
  end.

(** ** [RentalManagementView.update_rental_info]

    The text under the rent form, for a selection that parses to a movie id
    and a due date.  The clock is [datetime.now()]: the day [today] and the
    microseconds [time_of_day] since its midnight.  The period is the [days]
    of a difference of two [datetime]s, the due date at midnight less now,
    and the [days] of a [timedelta] round down. *)

Definition microseconds_per_day : Z := 86400000000.

Inductive rental_info : Set :=
  | RentalDetails (title : string) (rental_rate rental_days total_charge : Z)
  | DueDateNotInFuture     (* "Error: Due date must be in the future" *)
  | MovieDetailsMissing.   (* "Error: Could not load movie details" *)

Definition update_rental_info (today : date) (time_of_day : Z)
    (movie_id due_date : Z) (s : db) : rental_info :=
  match get_movie_by_id movie_id s with
  | (true, _, Some movie) =>
      let now := today * microseconds_per_day + time_of_day in
      let rental_days :=
        (due_date * microseconds_per_day - now) / microseconds_per_day in
      if bool_decide (0 < rental_days) then
        let total_charge := rental_rate movie * rental_days in
        RentalDetails (title movie) (rental_rate movie) rental_days total_charge
      else DueDateNotInFuture
  | _ => MovieDetailsMissing
  end.

(** ** Sequences of calls of the three models *)

Inductive app_call : Set :=
  | rental_model_call (c : call)
  | stock_update (movie_id new_quantity : Z)
  | movie_delete (movie_id : Z)
  | customer_delete (customer_id : Z).

Definition app_after (self : RentalModel) (today : date) (c : app_call)
    (s : db) : db :=
  match c with
  | rental_model_call c => after self today c s
  | stock_update movie_id new_quantity =>
      (update_stock_quantity movie_id new_quantity s).2
  | movie_delete movie_id => (delete_movie movie_id s).2
  | customer_delete customer_id => (delete_customer customer_id s).2
  end.

Inductive app_reachable (self : RentalModel) (s0 : db) : db → Prop :=
  | app_reachable_start : app_reachable self s0 s0
  | app_reachable_call s today c :
      app_reachable self s0 s → app_reachable self s0 (app_after self today c s).

(** ** Conditions on the tables *)

(** The foreign keys of [rentals] and [returns]. *)
Definition return_references (s : db) (row : return_row) : Prop :=
  is_Some (rentals s !! ret_rental_id row) ∧ processed_by row ∈ employees s.

Definition referential_integrity (s : db) : Prop :=
  map_Forall (λ _ r, joined s r) (rentals s)
  ∧ Forall (return_references s) (returns s).

#[global] Instance referential_integrity_dec s :
  Decision (referential_integrity s).
Proof. unfold referential_integrity, return_references. apply _. Defined.

(** A [returns] row and its rental tell the same story. *)
Definition return_recorded (s : db) (row : return_row) : Prop :=
  match rentals s !! ret_rental_id row with
  | Some r =>
      rental_status r = returned
      ∧ actual_return_date r = Some (return_date row)
      ∧ late_fee r = ret_late_fee row
      ∧ total_paid row = total_charge r + ret_late_fee row
  | None => False
  end.

#[global] Instance return_recorded_dec s row : Decision (return_recorded s row).
Proof. unfold return_recorded. destruct (rentals s !! _); apply _. Defined.

(** Every [returns] row belongs to a returned rental, no rental has two
    rows, and every returned rental has its row. *)
Definition ledger_consistent (s : db) : Prop :=
  Forall (return_recorded s) (returns s)
  ∧ NoDup (ret_rental_id <$> returns s)
  ∧ map_Forall (λ id r, rental_status r = returned →
                        id ∈ ret_rental_id <$> returns s) (rentals s).

#[global] Instance ledger_consistent_dec s : Decision (ledger_consistent s).
Proof. unfold ledger_consistent. apply _. Defined.

#[global] Instance due_date_asc_total : Total due_date_asc.
Proof. intros a b. unfold due_date_asc. lia. Qed.

#[global] Instance rental_date_desc_total : Total rental_date_desc.
Proof. intros a b. unfold rental_date_desc. lia. Qed.

(** What a rental was booked as: who, what, by whom, when, until when and
    for how much. *)
Definition same_booking (r r' : rental) : Prop :=
  customer_id r' = customer_id r ∧ movie_id r' = movie_id r
  ∧ employee_id r' = employee_id r ∧ rental_date r' = rental_date r
  ∧ due_date r' = due_date r ∧ total_charge r' = total_charge r.

(** The tables before and after one call of the three models. *)
Inductive app_step (s : db) : db → Prop :=
  | step_none : app_step s s
  | step_rented c m e today due mv charge :
      is_Some (customers s !! c) → movies s !! m = Some mv →
      e ∈ employees s → 0 < stock_quantity mv →
      app_step s
        (Db (customers s)
            (<[m := Movie (title mv) (rental_rate mv) (stock_quantity mv - 1)
                          (total_copies mv)
                          (bool_decide (0 < stock_quantity mv - 1))]>
               (movies s))
            (employees s)
            (<[lastrowid (rentals s) :=
                 Rental c m e today due None charge 0 active]> (rentals s))
            (returns s))
  | step_returned rid e today r mv fee :
      rentals s !! rid = Some r → rental_status r = active →
      movies s !! movie_id r = Some mv → e ∈ employees s →
      app_step s
        (Db (customers s)
            (<[movie_id r := Movie (title mv) (rental_rate mv)
                                   (stock_quantity mv + 1) (total_copies mv)
                                   true]> (movies s))
            (employees s)
            (<[rid := Rental (customer_id r) (movie_id r) (employee_id r)
                             (rental_date r) (due_date r) (Some today)
                             (total_charge r) fee returned]> (rentals s))
            (returns s
             ++ [ReturnRow rid today (Z.max 0 (today - due_date r)) fee
                           (total_charge r + fee) e]))
  | step_swept today :
      app_step s (set_rentals (fmap (promote_row today)) s)
  | step_stock m q mv :
      movies s !! m = Some mv → 0 ≤ q →
      app_step s
        (set_movies
           (insert m (Movie (title mv) (rental_rate mv) q (total_copies mv)
                            (bool_decide (0 < q)))) s)
  | step_movie_deleted m :
      (∀ k r, rentals s !! k = Some r → movie_id r ≠ m) →
      app_step s (set_movies (delete m) s)
  | step_customer_deactivated c :
      is_Some (customers s !! c) →
      (∀ k r, rentals s !! k = Some r → customer_id r = c →
              rental_status r = returned) →
      app_step s (set_customers (insert c (Customer false)) s).

(** * Properties *)

(** ** What a call of [rent_movie] does *)

Section rent_movie_facts.

Context (today : date) (c m e : Z) (due : date) (s : db).

(** A failure tuple comes with the database the call started from. *)
Lemma rent_movie_failure message data s' :
  rent_movie today c m e due s = ((false, message, data), s') → s' = s.
Proof.
  unfold rent_movie, rent_transaction.
  intros H. repeat case_match; simplify_eq; done.
Qed.

(** A success tuple tells which rows were read and which were written. *)
Lemma rent_movie_success message data s' :
  rent_movie today c m e due s = ((true, message, data), s') →
  ∃ cu mv,
    customers s !! c = Some cu ∧ is_active cu = true ∧
    movies s !! m = Some mv ∧ is_available mv = true ∧
    0 < stock_quantity mv ∧ today < due ∧
    e ∈ employees s ∧
    decimal_8_2 (rental_rate mv * (due - today)) ∧
    message = Rented (title mv) (rental_rate mv * (due - today)) ∧
    data = Some (lastrowid (rentals s)) ∧
    s' = Db (customers s)
            (<[m := Movie (title mv) (rental_rate mv)
                          (stock_quantity mv - 1) (total_copies mv)
                          (bool_decide (0 < stock_quantity mv - 1))]>
               (movies s))
            (employees s)
            (<[lastrowid (rentals s) :=
                 Rental c m e today due None
                        (rental_rate mv * (due - today)) 0 active]>
               (rentals s))
            (returns s).
Proof.
  unfold rent_movie, rent_checks. intros H.
  destruct (customers s !! c) as [cu|] eqn:Hcu; [|discriminate].
  destruct (is_active cu) eqn:Hactive; [|discriminate].
  destruct (movies s !! m) as [mv|] eqn:Hmv; [|discriminate].
  destruct (is_available mv) eqn:Havailable; [|discriminate].
  cbn [negb orb] in H. case_bool_decide as Hstock; [discriminate|].
  cbv zeta in H. case_bool_decide as Hdue; [discriminate|].
  unfold rent_transaction, insert_rental in H. cbn [local_total_charge] in H.
  destruct (decide _) as [(_ & _ & He)|] in H; [|discriminate].
  destruct (decide _) as [Hcharge|] in H; [|discriminate].
  unfold update_movie_stock in H.
  cbn [set_rentals movies local_stock_quantity local_title] in H.
  rewrite Hmv in H.
  destruct (decide _) as [_|] in H; [|discriminate].
  injection H as <- <- <-. exists cu, mv.
  repeat split; first [done | lia | apply Hcharge].
Qed.

End rent_movie_facts.

(** ** What a call of [return_movie] does *)

Section return_movie_facts.

Context (self : RentalModel) (today : date) (rid e : Z) (s : db).

Lemma return_movie_failure message data s' :
  return_movie self today rid e s = ((false, message, data), s') → s' = s.
Proof.
  unfold return_movie.
  intros H. repeat case_match; simplify_eq; done.
Qed.

Lemma return_movie_success message data s' :
  return_movie self today rid e s = ((true, message, data), s') →
  ∃ r mv,
    rentals s !! rid = Some r ∧ rental_status r = active ∧
    movies s !! movie_id r = Some mv ∧ e ∈ employees s ∧
    let days := Z.max 0 (today - due_date r) in
    let fee := days * late_fee_per_day self in
    let paid := total_charge r + fee in
    (sql_int days ∧ decimal_8_2 fee ∧ decimal_8_2 paid
     ∧ sql_int (stock_quantity mv + 1)) ∧
    data = Some (ReturnData rid (title mv) today days fee (total_charge r)
                            paid) ∧
    message = (if bool_decide (0 < days)
               then ReturnedLate (title mv) days fee paid
               else ReturnedOnTime (title mv) paid) ∧
    s' = Db (customers s)
            (<[movie_id r := Movie (title mv) (rental_rate mv)
                                   (stock_quantity mv + 1) (total_copies mv)
                                   true]> (movies s))
            (employees s)
            (<[rid := Rental (customer_id r) (movie_id r) (employee_id r)
                             (rental_date r) (due_date r) (Some today)
                             (total_charge r) fee returned]> (rentals s))
            (returns s ++ [ReturnRow rid today days fee paid e]).
Proof.
  unfold return_movie, select_rental. intros H.
  destruct (rentals s !! rid) as [r|] eqn:Hr; [|discriminate].
  destruct (decide (rental_status r = active)) as [Hactive|]; [|discriminate].
  destruct (movies s !! movie_id r) as [mv|] eqn:Hmv; [|discriminate].
  cbv zeta in H. unfold update_rental_returned in H. rewrite Hr in H.
  destruct (decide _) as [Hfee|] in H; [|discriminate].
  unfold insert_return in H.
  cbn [set_rentals rentals employees ret_rental_id processed_by late_days
       ret_late_fee total_paid] in H.
  destruct (decide _) as [[_ He]|] in H; [|discriminate].
  destruct (decide _) as [(Hdays & _ & Hpaid)|] in H; [|discriminate].
  unfold update_movie_stock in H. cbn [set_returns set_rentals movies] in H.
  rewrite Hmv in H.
  destruct (decide _) as [Hstock|] in H; [|discriminate].
  injection H as <- <- <-. exists r, mv. cbv zeta.
  repeat split; first [done | apply Hdays | apply Hfee | apply Hpaid
                      | apply Hstock].
Qed.

(** X2.  The calls that succeed: the rental is in status [active], its
    movie row exists, and the server accepts the three writes. *)
Lemma return_movie_succeeds_iff :
  (return_movie self today rid e s).1.1.1 = true ↔
  ∃ r mv,
    rentals s !! rid = Some r ∧ rental_status r = active ∧
    movies s !! movie_id r = Some mv ∧ e ∈ employees s ∧
    let days := Z.max 0 (today - due_date r) in
    let fee := days * late_fee_per_day self in
    sql_int days ∧ decimal_8_2 fee ∧ decimal_8_2 (total_charge r + fee)
    ∧ sql_int (stock_quantity mv + 1).
Proof.
  split.
  - destruct (return_movie self today rid e s) as [[[ok message] data] s']
      eqn:Hcall.
    simpl. intros ->.
    apply return_movie_success in Hcall
      as (r & mv & ? & ? & ? & ? & ? & _).
    by exists r, mv.
  - intros (r & mv & Hr & Hactive & Hmv & He & Hdays & Hfee & Hpaid & Hstock).
    unfold return_movie, select_rental, update_rental_returned,
      insert_return, update_movie_stock.
    rewrite Hr, (decide_True _ _ Hactive), Hmv, (decide_True _ _ Hfee).
    simpl. rewrite lookup_insert_eq.
    rewrite decide_True by (split; [by eexists | done]).
    rewrite decide_True by done.
    simpl. rewrite Hmv, (decide_True _ _ Hstock). done.
Qed.

End return_movie_facts.

(** ** C1: which rentals [return_movie] accepts *)

(** The refusals the claim lists: there is no such rental, or it is already
    returned. *)
Lemma return_movie_not_found self today rid e s :
  rentals s !! rid = None →
  return_movie self today rid e s = ((false, RentalNotFound, None), s).
Proof. intros H. unfold return_movie, select_rental. by rewrite H. Qed.

Lemma return_movie_already_returned self today rid e s r :
  rentals s !! rid = Some r → rental_status r = returned →
  return_movie self today rid e s = ((false, RentalNotFound, None), s).
Proof.
  intros H Hst. unfold return_movie, select_rental. rewrite H.
  by rewrite decide_False by congruence.
Qed.

(** A rental that the sweep has promoted is refused in the same way: the
    [WHERE] clause of line 150 asks for [rental_status = 'active']. *)
Lemma return_movie_overdue self today rid e s r :
  rentals s !! rid = Some r → rental_status r = overdue →
  return_movie self today rid e s = ((false, RentalNotFound, None), s).
Proof.
  intros H Hst. unfold return_movie, select_rental. rewrite H.
  by rewrite decide_False by congruence.
Qed.

(** A refused call adds no [returns] row and leaves every stock as it was. *)
Lemma return_movie_refused_no_effect self today rid e s message data s' :
  return_movie self today rid e s = ((false, message, data), s') →
  returns s' = returns s ∧ movies s' = movies s.
Proof. intros H. by rewrite (return_movie_failure _ _ _ _ _ _ _ _ H). Qed.

(** C1, at the input where the code departs from it.  In [Sample.swept]
    rental 1 exists and is in status [overdue]; the claim has [return_movie]
    accept it.  The code answers "Rental not found or already returned" and
    changes nothing: no [returns] row, stock still 4. *)
Theorem return_movie_refuses_promoted_rental :
  (∃ r, rentals Sample.swept !! 1 = Some r ∧ rental_status r = overdue)
  ∧ return_movie __init__ (Sample.day + 10) 1 1 Sample.swept
    = ((false, RentalNotFound, None), Sample.swept)
  ∧ returns_of 1 Sample.swept = []
  ∧ stock_of 1 Sample.swept = Some 4.
Proof.
  split; [|split; [|split]].
  - eexists. split; [by vm_compute|done].
  - by vm_compute.
  - by vm_compute.
  - by vm_compute.
Qed.

(** The same rental before the sweep is accepted. *)
Example return_movie_accepts_active_rental :
  (return_movie __init__ (Sample.day + 10) 1 1 Sample.rented).1
  = (true, ReturnedLate "The Shawshank Redemption" 3 600 2693,
     Some (ReturnData 1 "The Shawshank Redemption" (Sample.day + 10) 3 600
                      2093 2693)).
Proof. by vm_compute. Qed.

(** ** C2: the checks of [rent_movie] *)

(** C2.  [rent_movie] tests its preconditions in the order customer exists,
    customer active, movie exists, movie available with stock above zero,
    due date after today; the first that fails decides the message, and every
    call that fails, for these or any other reason, hands back the database it
    was given: no rental row is inserted and no stock is decremented. *)
Theorem rent_movie_checks_before_writes today c m e due s :
  let call := rent_movie today c m e due s in
  (customers s !! c = None → call = ((false, CustomerNotFound, None), s))
  ∧ (∀ cu, customers s !! c = Some cu → is_active cu = false →
       call = ((false, CustomerInactive, None), s))
  ∧ (∀ cu, customers s !! c = Some cu → is_active cu = true →
       movies s !! m = None →
       call = ((false, MovieNotFound, None), s))
  ∧ (∀ cu mv, customers s !! c = Some cu → is_active cu = true →
       movies s !! m = Some mv →
       is_available mv = false ∨ stock_quantity mv ≤ 0 →
       call = ((false, MovieUnavailable, None), s))
  ∧ (∀ cu mv, customers s !! c = Some cu → is_active cu = true →
       movies s !! m = Some mv →
       is_available mv = true → 0 < stock_quantity mv → due ≤ today →
       call = ((false, InvalidDueDate, None), s))
  ∧ (call.1.1.1 = false → call.2 = s).
Proof.
  cbv zeta. unfold rent_movie at 1 2 3 4 5, rent_checks.
  repeat split.
  - by intros ->.
  - by intros cu -> ->.
  - by intros cu -> -> ->.
  - intros cu mv -> -> -> Hno. simpl.
    destruct Hno as [-> | Hstock]; [done|].
    by rewrite (bool_decide_eq_true_2 _ Hstock), orb_true_r.
  - intros cu mv -> -> -> -> Hstock Hdue. simpl.
    rewrite bool_decide_eq_false_2 by lia.
    by rewrite bool_decide_eq_true_2 by lia.
  - destruct (rent_movie today c m e due s) as [[[ok message] data] s']
      eqn:Hcall.
    simpl. intros ->. by apply rent_movie_failure in Hcall.
Qed.

(** With no copy on the shelf, and on the day the copy is due. *)
Example rent_movie_no_stock :
  let s := (update_stock_quantity 4 0 Sample.store).2 in
  stock_of 4 s = Some 0
  ∧ rent_movie Sample.day 1 4 1 (Sample.day + 7) s
    = ((false, MovieUnavailable, None), s).
Proof. by vm_compute. Qed.

Example rent_movie_due_today :
  rent_movie Sample.day 1 4 1 Sample.day Sample.store
  = ((false, InvalidDueDate, None), Sample.store).
Proof. by vm_compute. Qed.

(** A call that passes the four checks and is then refused by the server
    (employee 9 does not exist) is rolled back. *)
Example rent_movie_rolled_back :
  rent_movie Sample.day 1 4 9 (Sample.day + 7) Sample.store
  = ((false, RentFailed ForeignKeyFails, None), Sample.store).
Proof. by vm_compute. Qed.

(** ** C3: stock and availability *)

Lemma movie_consistent_rented mv :
  0 < stock_quantity mv →
  movie_consistent
    (Movie (title mv) (rental_rate mv) (stock_quantity mv - 1)
           (total_copies mv) (bool_decide (0 < stock_quantity mv - 1))).
Proof.
  intros Hstock. split; simpl; [lia|]. apply bool_decide_spec.
Qed.

Lemma movie_consistent_returned mv :
  0 ≤ stock_quantity mv →
  movie_consistent
    (Movie (title mv) (rental_rate mv) (stock_quantity mv + 1)
           (total_copies mv) true).
Proof. intros Hstock. split; simpl; [lia|]. split; [lia|done]. Qed.

(** One call keeps the condition: [rent_movie] writes [new_stock > 0] next
    to a stock it found positive, [return_movie] writes [TRUE] next to a
    stock it raised by one. *)
Lemma movies_consistent_after self today c s :
  movies_consistent s → movies_consistent (after self today c s).
Proof.
  intros Hs. destruct c as [cid mid eid due | rid eid |]; simpl.
  - destruct (rent_movie today cid mid eid due s) as [[[[] message] data] s']
      eqn:Hcall; simpl.
    + apply rent_movie_success in Hcall
        as (cu & mv & _ & _ & Hmv & _ & Hstock & _ & _ & _ & _ & _ & ->).
      apply map_Forall_insert_2; [|done].
      by apply movie_consistent_rented.
    + by apply rent_movie_failure in Hcall as ->.
  - destruct (return_movie self today rid eid s) as [[[[] message] data] s']
      eqn:Hcall; simpl.
    + apply return_movie_success in Hcall
        as (r & mv & _ & _ & Hmv & _ & _ & _ & _ & ->).
      apply map_Forall_insert_2; [|done].
      apply movie_consistent_returned. by destruct (Hs _ _ Hmv).
    + by apply return_movie_failure in Hcall as ->.
  - done.
Qed.

Lemma movies_consistent_reachable self s0 s :
  movies_consistent s0 → reachable self s0 s → movies_consistent s.
Proof.
  intros Hs0 Hreach. induction Hreach as [|s today c _ IH]; [done|].
  by apply movies_consistent_after.
Qed.

(** C3.  From a database in which every movie has [0 ≤ stock_quantity] and
    [is_available ⇔ stock_quantity > 0], every movie of every database that
    rent, return and promotion calls lead to has [0 ≤ stock_quantity] and
    [is_available ⇔ stock_quantity > 0]. *)
Theorem stock_and_availability_agree self s0 s id m :
  movies_consistent s0 → reachable self s0 s → movies s !! id = Some m →
  0 ≤ stock_quantity m ∧ (is_available m = true ↔ 0 < stock_quantity m).
Proof.
  intros Hs0 Hreach Hm.
  destruct (movies_consistent_reachable self s0 s Hs0 Hreach id m Hm)
    as [Hge Hiff].
  split; [done|]. by rewrite <- Hiff, Is_true_true.
Qed.

Lemma stock_and_availability_agree_witness :
  let s := after __init__ Sample.day (rent 3 4 1 (Sample.day + 2))
             (after __init__ Sample.day (rent 2 4 1 (Sample.day + 3))
                Sample.store) in
  let m := Movie "Pulp Fiction" 299 0 2 false in
  movies_consistent Sample.store
  ∧ movies s !! 4 = Some m
  ∧ 0 ≤ stock_quantity m ∧ (is_available m = true ↔ 0 < stock_quantity m).
Proof.
  cbv zeta.
  assert (H0 : movies_consistent Sample.store)
    by (apply (bool_decide_unpack _); vm_compute; exact I).
  split; [exact H0|]. split; [vm_compute; reflexivity|].
  apply (stock_and_availability_agree __init__ Sample.store
           (after __init__ Sample.day (rent 3 4 1 (Sample.day + 2))
              (after __init__ Sample.day (rent 2 4 1 (Sample.day + 3))
                 Sample.store))
           4).
  - exact H0.
  - apply reachable_call, reachable_call, reachable_start.
  - vm_compute. reflexivity.
Defined.

(** Renting the last copy clears the flag, returning it sets the flag. *)
Example availability_follows_stock :
  let s1 := (rent_movie Sample.day 3 4 1 (Sample.day + 2) Sample.last_copy).2 in
  let s2 := (return_movie __init__ (Sample.day + 1) 1 1 s1).2 in
  movies s1 !! 4 = Some (Movie "Pulp Fiction" 299 0 2 false)
  ∧ movies s2 !! 4 = Some (Movie "Pulp Fiction" 299 1 2 true).
Proof. by vm_compute. Qed.

(** ** C4: stock and total copies *)

(** *** Counting rows *)

Section counting.

Context {A : Type} (P : Z * A → Prop) `{!∀ kx, Decision (P kx)}.

Lemma size_filter_insert_fresh (t : gmap Z A) k x :
  t !! k = None →
  size (filter P (<[k:=x]> t)) = (count_if P (k, x) + size (filter P t))%nat.
Proof.
  intros Hk. unfold count_if. rewrite map_filter_insert. case_decide.
  - rewrite map_size_insert_None; [done|].
    apply map_lookup_filter_None_2. by left.
  - by rewrite delete_id.
Qed.

Lemma size_filter_replace (t : gmap Z A) k x y :
  t !! k = Some x →
  (size (filter P (<[k:=y]> t)) + count_if P (k, x)
   = size (filter P t) + count_if P (k, y))%nat.
Proof.
  intros Hk.
  rewrite <- (insert_delete_id t k x Hk) at 2.
  rewrite <- (insert_delete_eq t k y).
  rewrite !size_filter_insert_fresh by apply lookup_delete_eq. lia.
Qed.

End counting.

(** *** Keys *)

Lemma foldr_max_bound (l : list Z) k : k ∈ l → k ≤ foldr Z.max 0 l.
Proof.
  induction l as [|x l IH]; intros Hk; [by apply elem_of_nil in Hk|].
  apply elem_of_cons in Hk as [->|Hk]; simpl; [lia|].
  specialize (IH Hk). lia.
Qed.

Lemma max_rental_id_bound (t : gmap Z rental) k r :
  t !! k = Some r → k ≤ max_rental_id t.
Proof.
  intros Hk. apply foldr_max_bound.
  apply list_elem_of_fmap. exists (k, r). split; [done|].
  by apply elem_of_map_to_list.
Qed.

(** The key that [INSERT INTO rentals] assigns is not in use. *)
Lemma lastrowid_fresh (t : gmap Z rental) : t !! lastrowid t = None.
Proof.
  destruct (t !! lastrowid t) as [r|] eqn:Hk; [|done].
  apply max_rental_id_bound in Hk. unfold lastrowid in Hk. lia.
Qed.

(** *** Copies out *)

Lemma copies_out_rented id s mvs k c m e today due charge :
  rentals s !! k = None →
  copies_out id
    (Db (customers s) mvs (employees s)
        (<[k := Rental c m e today due None charge 0 active]> (rentals s))
        (returns s))
  = copies_out id s + (if decide (m = id) then 1 else 0).
Proof.
  intros Hk. unfold copies_out. simpl.
  rewrite size_filter_insert_fresh by done.
  unfold count_if, out_on_rental. simpl.
  repeat case_decide; destruct_and?; try done; try lia.
  exfalso. auto.
Qed.

Lemma copies_out_returned id s mvs rows k r day fee :
  rentals s !! k = Some r → rental_status r = active →
  copies_out id
    (Db (customers s) mvs (employees s)
        (<[k := Rental (customer_id r) (movie_id r) (employee_id r)
                       (rental_date r) (due_date r) (Some day)
                       (total_charge r) fee returned]> (rentals s))
        rows)
  = copies_out id s - (if decide (movie_id r = id) then 1 else 0).
Proof.
  intros Hk Hactive. unfold copies_out. simpl.
  pose proof (size_filter_replace (λ kr, out_on_rental id kr.2) (rentals s) k r
    (Rental (customer_id r) (movie_id r) (employee_id r) (rental_date r)
            (due_date r) (Some day) (total_charge r) fee returned) Hk) as Hsize.
  unfold count_if, out_on_rental in *. simpl in Hsize.
  repeat case_decide; destruct_and?; try done; try lia.
  all: exfalso; auto.
Qed.

Lemma copies_out_swept id today s :
  copies_out id (update_overdue_statuses today s).2 ≤ copies_out id s.
Proof.
  unfold copies_out. simpl. apply inj_le.
  rewrite map_filter_fmap, map_size_fmap.
  apply map_subseteq_size, map_filter_subseteq_ext.
  intros k r _. unfold out_on_rental, promote_row. simpl.
  case_decide; simpl; [|done]. by intros [_ ?].
Qed.

(** One call keeps every copy accounted for. *)
Lemma copies_accounted_after self today c s :
  copies_accounted s → copies_accounted (after self today c s).
Proof.
  intros Hs. destruct c as [cid mid eid due | rid eid |]; simpl.
  - destruct (rent_movie today cid mid eid due s) as [[[[] message] data] s']
      eqn:Hcall; simpl.
    + apply rent_movie_success in Hcall
        as (cu & mv & _ & _ & Hmv & _ & _ & _ & _ & _ & _ & _ & ->).
      intros id mv' Hid.
      rewrite copies_out_rented by apply lastrowid_fresh.
      simpl in Hid. destruct (decide (mid = id)) as [<-|Hne].
      * rewrite lookup_insert_eq in Hid. simplify_eq. simpl.
        specialize (Hs _ _ Hmv). cbv beta in Hs. lia.
      * rewrite lookup_insert_ne in Hid by done.
        specialize (Hs _ _ Hid). cbv beta in Hs. lia.
    + by apply rent_movie_failure in Hcall as ->.
  - destruct (return_movie self today rid eid s) as [[[[] message] data] s']
      eqn:Hcall; simpl.
    + apply return_movie_success in Hcall
        as (r & mv & Hr & Hactive & Hmv & _ & _ & _ & _ & ->).
      intros id mv' Hid.
      rewrite copies_out_returned by done.
      simpl in Hid. destruct (decide (movie_id r = id)) as [<-|Hne].
      * rewrite lookup_insert_eq in Hid. simplify_eq. simpl.
        specialize (Hs _ _ Hmv). cbv beta in Hs. lia.
      * rewrite lookup_insert_ne in Hid by done.
        specialize (Hs _ _ Hid). cbv beta in Hs. lia.
    + by apply return_movie_failure in Hcall as ->.
  - change (copies_accounted (update_overdue_statuses today s).2).
    intros id mv Hid. specialize (Hs _ _ Hid). cbv beta in Hs.
    pose proof (copies_out_swept id today s). lia.
Qed.

Lemma copies_accounted_reachable self s0 s :
  copies_accounted s0 → reachable self s0 s → copies_accounted s.
Proof.
  intros Hs0 Hreach. induction Hreach as [|s today c _ IH]; [done|].
  by apply copies_accounted_after.
Qed.

(** [rent_movie] alone never raises a stock. *)
Lemma rent_movie_within_total today c m e due s result s' :
  rent_movie today c m e due s = (result, s') →
  stock_within_total s → stock_within_total s'.
Proof.
  destruct result as [[[] message] data]; intros Hcall Hs.
  - apply rent_movie_success in Hcall
      as (cu & mv & _ & _ & Hmv & _ & _ & _ & _ & _ & _ & _ & ->).
    apply map_Forall_insert_2; [|done].
    specialize (Hs _ _ Hmv). unfold within_total in *. simpl in *. lia.
  - by apply rent_movie_failure in Hcall as ->.
Qed.




(** ** C5: [calculate_late_fee] *)

(** C5.  [calculate_late_fee] depends on the model's rate, the clock and its
    two arguments only (it neither reads nor writes the database):
    [late_days = max(0, return_date - due_date)] in days and
    [late_fee = late_days * late_fee_per_day]; a missing [return_date] is
    today; [__init__] sets the rate to 2.00; and with that rate a copy due on
    2024-01-10 costs (5, 10.00) when returned on 2024-01-15 and (0, 0.00)
    when returned on 2024-01-05. *)
Theorem calculate_late_fee_spec self today due_date return_date :
  calculate_late_fee self today due_date (Some return_date)
  = (Z.max 0 (return_date - due_date),
     Z.max 0 (return_date - due_date) * late_fee_per_day self)
  ∧ calculate_late_fee self today due_date None
    = calculate_late_fee self today due_date (Some today)
  ∧ late_fee_per_day __init__ = 200
  ∧ calculate_late_fee __init__ today (Calendar.ymd2ord 2024 1 10)
                       (Some (Calendar.ymd2ord 2024 1 15))
    = (5, 1000)
  ∧ calculate_late_fee __init__ today (Calendar.ymd2ord 2024 1 10)
                       (Some (Calendar.ymd2ord 2024 1 5))
    = (0, 0).
Proof. repeat split. Qed.

(** X4.  The preview of the return form, [calculate_late_fee(due_date)], on
    the day [return_movie] runs shows the fee that [return_movie] charges. *)
Lemma calculate_late_fee_previews_return self today rid e s message data s' r :
  return_movie self today rid e s = ((true, message, Some data), s') →
  rentals s !! rid = Some r →
  calculate_late_fee self today (due_date r) None
  = (data_late_days data, data_late_fee data).
Proof.
  intros Hcall Hr. apply return_movie_success in Hcall
    as (r' & mv & Hr' & _ & _ & _ & _ & Hdata & _).
  assert (r' = r) as -> by congruence. by simplify_eq.
Qed.

(** The calendar behind the two examples. *)
Example january_2024 :
  Calendar.ymd2ord 2024 1 15 - Calendar.ymd2ord 2024 1 10 = 5
  ∧ Calendar.ymd2ord 2024 1 5 - Calendar.ymd2ord 2024 1 10 = -5
  ∧ Calendar.ymd2ord 2024 3 1 - Calendar.ymd2ord 2024 2 28 = 2
  ∧ Calendar.ymd2ord 1 1 1 = 1
  ∧ Calendar.ymd2ord 9999 12 31 = 3652059.
Proof. by vm_compute. Qed.

(** The float products of the two examples, as Python computes them. *)
Example late_fee_binary64 :
  Binary64.late_fee 5 = 10%float ∧ Binary64.late_fee 0 = 0%float
  ∧ Binary64.to_decimal (Binary64.late_fee 5) = 1000
  ∧ Binary64.to_decimal (Binary64.late_fee 0) = 0.
Proof. by vm_compute. Qed.

(** ** C6: charges *)

(** C6.  A successful [rent_movie] stores
    [total_charge = rental_rate * rental_days], where [rental_days] is the
    number of days from the rental date to the due date; a successful
    [return_movie] stores, and reports, [late_fee = late_days *
    late_fee_per_day] and [total_paid = total_charge + late_fee] for the
    charge of the rental; and a movie at 2.99 rented for 7 days is charged
    20.93, then returned 3 days late at 2.00 a day, a late fee of 6.00 and a
    total of 26.93. *)
Theorem charges_are_exact self :
  (∀ today c m e due s message rid s',
     rent_movie today c m e due s = ((true, message, Some rid), s') →
     ∃ mv r,
       movies s !! m = Some mv ∧ rentals s' !! rid = Some r
       ∧ rental_date r = today ∧ due_date r = due
       ∧ total_charge r = rental_rate mv * (due_date r - rental_date r)
       ∧ message = Rented (title mv) (total_charge r))
  ∧ (∀ today rid e s message data s',
       return_movie self today rid e s = ((true, message, Some data), s') →
       ∃ r r' row,
         rentals s !! rid = Some r ∧ rentals s' !! rid = Some r'
         ∧ returns s' = returns s ++ [row]
         ∧ ret_rental_id row = rid
         ∧ late_days row = Z.max 0 (today - due_date r)
         ∧ ret_late_fee row = late_days row * late_fee_per_day self
         ∧ total_paid row = total_charge r + ret_late_fee row
         ∧ late_fee r' = ret_late_fee row
         ∧ total_charge r' = total_charge r
         ∧ data_original_charge data = total_charge r)
  ∧ (rent_movie Sample.day 1 1 1 (Sample.day + 7) Sample.store).1
    = (true, Rented "The Shawshank Redemption" 2093, Some 1)
  ∧ rentals Sample.rented !! 1
    = Some (Rental 1 1 1 Sample.day (Sample.day + 7) None 2093 0 active)
  ∧ late_fee_per_day __init__ = 200
  ∧ returns (return_movie __init__ (Sample.day + 10) 1 1 Sample.rented).2
    = [ReturnRow 1 (Sample.day + 10) 3 600 2693 1].
Proof.
  split; [|split; [|repeat split]].
  - intros today c m e due s message rid s' Hcall.
    apply rent_movie_success in Hcall
      as (cu & mv & _ & _ & Hmv & _ & _ & _ & _ & _ & -> & [= ->] & ->).
    eexists mv, _. simpl. rewrite lookup_insert_eq. by repeat split.
  - intros today rid e s message data s' Hcall.
    apply return_movie_success in Hcall
      as (r & mv & Hr & _ & _ & _ & _ & [= ->] & _ & ->).
    eexists r, _, _. simpl. rewrite lookup_insert_eq. by repeat split.
Qed.

(** *** Binary64 and hundredths *)

(** Lines 162-163 in binary64 on the scenario: [3 * 2.00] is [6.0], and
    [float(Decimal('20.93')) + 6.0] is the float that [26.93] denotes. *)
Example scenario_binary64 :
  Binary64.late_fee 3 = 6%float
  ∧ Binary64.total_paid 2093 3 = Binary64.of_decimal 2693
  ∧ Binary64.to_decimal (Binary64.late_fee 3) = 600
  ∧ Binary64.to_decimal (Binary64.total_paid 2093 3) = 2693.
Proof. by vm_compute. Qed.

(** The float itself can miss the decimal sum in its last bit: 29.99 + 22.0
    is 51.989999999999995 and not the float of 51.99.  To two places it is
    51.99. *)
Example binary64_last_bit :
  Binary64.total_paid 2999 11 ≠ Binary64.of_decimal 5199
  ∧ Binary64.to_decimal (Binary64.total_paid 2999 11) = 5199.
Proof. split; [by vm_compute|by vm_compute]. Qed.

Lemma binary64_agrees_below_spec max_charge max_days total_charge late_days :
  Binary64.agrees_below max_charge max_days = true →
  0 ≤ total_charge < max_charge → 0 ≤ late_days < max_days →
  Binary64.agrees total_charge late_days = true.
Proof.
  unfold Binary64.agrees_below. intros H Hcharge Hdays.
  rewrite forallb_forall in H.
  assert (Hin : In total_charge (seqZ 0 max_charge))
    by (apply list_elem_of_In, elem_of_seqZ; lia).
  specialize (H total_charge Hin). rewrite forallb_forall in H.
  apply H. apply list_elem_of_In, elem_of_seqZ. lia.
Qed.

Lemma binary64_agrees_below : Binary64.agrees_below 2200 4 = true.
Proof. vm_compute. reflexivity. Qed.

(** X23.  For every charge below 22.00 and every delay below 4 days the
    floats of [return_movie], to two places, are the amounts of the model. *)
Lemma binary64_agrees total_charge late_days :
  0 ≤ total_charge < 2200 → 0 ≤ late_days < 4 →
  Binary64.to_decimal (Binary64.late_fee late_days)
  = late_days * late_fee_per_day __init__
  ∧ Binary64.to_decimal (Binary64.total_paid total_charge late_days)
    = total_charge + late_days * late_fee_per_day __init__.
Proof.
  intros Hcharge Hdays.
  pose proof (binary64_agrees_below_spec 2200 4 total_charge late_days
                binary64_agrees_below Hcharge Hdays) as H.
  unfold Binary64.agrees in H.
  apply andb_true_iff in H as [H1 H2].
  apply bool_decide_eq_true in H1, H2. split; assumption.
Qed.

(** ** C7: one copy out, one copy back *)

Lemma rent_movie_takes_one today c m e due s message data s' :
  rent_movie today c m e due s = ((true, message, data), s') →
  ∃ q, stock_of m s = Some q ∧ stock_of m s' = Some (q - 1).
Proof.
  intros Hcall. apply rent_movie_success in Hcall
    as (cu & mv & _ & _ & Hmv & _ & _ & _ & _ & _ & _ & _ & ->).
  exists (stock_quantity mv). unfold stock_of. simpl.
  by rewrite Hmv, lookup_insert_eq.
Qed.

Lemma return_movie_gives_one self today rid e s message data s' r :
  return_movie self today rid e s = ((true, message, data), s') →
  rentals s !! rid = Some r →
  ∃ q, stock_of (movie_id r) s = Some q
       ∧ stock_of (movie_id r) s' = Some (q + 1).
Proof.
  intros Hcall Hr. apply return_movie_success in Hcall
    as (r' & mv & Hr' & _ & Hmv & _ & _ & _ & _ & ->).
  assert (r' = r) as -> by congruence.
  exists (stock_quantity mv). unfold stock_of. simpl.
  by rewrite Hmv, lookup_insert_eq.
Qed.

(** The stock of every other movie stays as it is. *)
Lemma rent_movie_other_stock today c m e due s result s' id :
  rent_movie today c m e due s = (result, s') → id ≠ m →
  stock_of id s' = stock_of id s.
Proof.
  destruct result as [[[] message] data]; intros Hcall Hid.
  - apply rent_movie_success in Hcall
      as (cu & mv & _ & _ & _ & _ & _ & _ & _ & _ & _ & _ & ->).
    unfold stock_of. simpl. by rewrite lookup_insert_ne.
  - by apply rent_movie_failure in Hcall as ->.
Qed.

Lemma rent_return_pairs_stock self m n s s' :
  rent_return_pairs self m n s s' → stock_of m s' = stock_of m s.
Proof.
  induction 1 as [|n s s1 s2 s3 day1 day2 cid eid due message1 new_id rid
                    eid' row message2 data Hrent Hrow Hmovie Hreturn _ IH];
    [done|].
  rewrite IH.
  destruct (rent_movie_takes_one _ _ _ _ _ _ _ _ _ Hrent) as (q & Hq & Hq1).
  destruct (return_movie_gives_one _ _ _ _ _ _ _ _ _ Hreturn Hrow)
    as (q' & Hq' & Hq2).
  rewrite Hmovie in Hq', Hq2. rewrite Hq2, Hq.
  f_equal. assert (q' = q - 1) by congruence. lia.
Qed.


(** Two pairs on Pulp Fiction: the second customer rents while the first
    copy is still out, and the copies come back in the other order. *)
Example two_pairs_on_pulp_fiction :
  ∃ s', rent_return_pairs __init__ 4 2 Sample.store s'
        ∧ stock_of 4 Sample.store = Some 2 ∧ stock_of 4 s' = Some 2.
Proof.
  eexists. split; [|split].
  - eapply (pairs_more __init__ 4 1 Sample.store _ _ _
              Sample.day (Sample.day + 1) 1 1 (Sample.day + 3) _ _ 1 1).
    + by vm_compute.
    + by vm_compute.
    + done.
    + by vm_compute.
    + eapply (pairs_more __init__ 4 0 _ _ _ _
                (Sample.day + 1) (Sample.day + 2) 2 1 (Sample.day + 4) _ _ 2 1).
      * by vm_compute.
      * by vm_compute.
      * done.
      * by vm_compute.
      * apply pairs_done.
  - by vm_compute.
  - by vm_compute.
Qed.

(** ** C8 and C9: the sweep *)

Lemma promote_row_past_due today r :
  past_due today r → promote_row today r = set_overdue r.
Proof. intros H. unfold promote_row. by rewrite decide_True. Qed.

Lemma promote_row_other today r :
  ¬ past_due today r → promote_row today r = r.
Proof. intros H. unfold promote_row. by rewrite decide_False. Qed.

(** A row that the sweep has visited is not selected again. *)
Lemma promote_row_not_past_due today r :
  ¬ past_due today (promote_row today r).
Proof.
  unfold promote_row. case_decide as H; [|done].
  unfold past_due. simpl. intros [? _]. done.
Qed.

Lemma promote_row_idempotent today r :
  promote_row today (promote_row today r) = promote_row today r.
Proof. apply promote_row_other, promote_row_not_past_due. Qed.

Lemma no_past_due_after_sweep today (t : gmap Z rental) (P : Z * rental → Prop)
    `{!∀ kr, Decision (P kr)} :
  (∀ kr, P kr → past_due today kr.2) →
  filter P (promote_row today <$> t) = ∅.
Proof.
  intros HP. apply map_empty. intros id.
  apply map_lookup_filter_None_2. right. intros r Hr HPr.
  apply lookup_fmap_Some in Hr as (r0 & <- & _).
  apply HP in HPr. by apply promote_row_not_past_due in HPr.
Qed.

Lemma overdue_rowcount_after_sweep today s :
  overdue_rowcount today (update_overdue_statuses today s).2 = 0.
Proof.
  unfold overdue_rowcount. simpl.
  rewrite no_past_due_after_sweep by done.
  by rewrite map_size_empty.
Qed.

(** C8.  One run of [update_overdue_statuses] sets every rental that is
    [active] and due before today to [overdue], leaves the others as they
    are, and returns the number of rentals it has set; a second run on the
    same day, with nothing in between, returns count 0 and leaves the
    database as the first run left it. *)
Theorem update_overdue_statuses_idempotent today s :
  let first := update_overdue_statuses today s in
  (∀ id r, rentals s !! id = Some r →
     rentals first.2 !! id
     = Some (if decide (rental_status r = active ∧ due_date r < today)
             then set_overdue r else r))
  ∧ first.1.2
    = Z.of_nat (size (filter (λ kr : Z * rental,
                                rental_status kr.2 = active
                                ∧ due_date kr.2 < today) (rentals s)))
  ∧ update_overdue_statuses today first.2
    = ((true, UpdatedOverdue 0, 0), first.2).
Proof.
  cbv zeta. split; [|split].
  - intros id r Hr. simpl. by rewrite lookup_fmap, Hr.
  - done.
  - unfold update_overdue_statuses at 1.
    rewrite overdue_rowcount_after_sweep. f_equal.
    unfold update_overdue_statuses, set_rentals. simpl. f_equal.
    rewrite <- map_fmap_compose. apply map_fmap_ext.
    intros id r _. apply promote_row_idempotent.
Qed.

Example sweep_twice :
  (update_overdue_statuses (Sample.day + 10) Sample.rented).1
  = (true, UpdatedOverdue 1, 1)
  ∧ (update_overdue_statuses (Sample.day + 10) Sample.swept).1
    = (true, UpdatedOverdue 0, 0).
Proof. by vm_compute. Qed.

(** C9.  After a run of [update_overdue_statuses] the overdue report of the
    same day is empty: it selects the rentals that are [active] and due
    before today, and the run has just set these to [overdue].  A rental that
    the run has promoted is in status [overdue] and is in neither the overdue
    report nor the list of active rentals. *)
Theorem overdue_report_empty_after_sweep today s :
  let swept := (update_overdue_statuses today s).2 in
  get_overdue_rentals today swept = (true, FoundOverdueRentals 0, [])
  ∧ (∀ id r, rentals s !! id = Some r →
       rental_status r = active → due_date r < today →
       rentals swept !! id = Some (set_overdue r)
       ∧ (∀ row, row ∈ (get_active_rentals swept).2 → row.1 ≠ id)
       ∧ (∀ row, row ∈ (get_overdue_rentals today swept).2 → row.1.1 ≠ id)).
Proof.
  cbv zeta.
  assert (Hreport : get_overdue_rentals today (update_overdue_statuses today s).2
                    = (true, FoundOverdueRentals 0, [])).
  { unfold get_overdue_rentals. simpl.
    rewrite no_past_due_after_sweep by (by intros kr [_ ?]).
    by rewrite map_to_list_empty. }
  split; [done|].
  intros id r Hr Hactive Hdue.
  assert (Hpast : past_due today r) by done.
  split; [|split].
  - simpl. rewrite lookup_fmap, Hr. simpl.
    by rewrite (promote_row_past_due _ _ Hpast).
  - intros [id' r'] Hrow Hid. simpl in Hid. subst id'. revert Hrow.
    unfold get_active_rentals, search_rentals. simpl.
    rewrite merge_sort_Permutation, elem_of_map_to_list.
    rewrite map_lookup_filter_Some, lookup_fmap, Hr. simpl.
    rewrite (promote_row_past_due _ _ Hpast).
    intros [[= <-] (_ & _ & _ & Hst)]. done.
  - rewrite Hreport. simpl. intros row Hrow. by apply elem_of_nil in Hrow.
Qed.

(** On the sample: the rental is in the report before the sweep, and in
    neither list after it. *)
Example overdue_report_before_and_after :
  (get_overdue_rentals (Sample.day + 10) Sample.rented).1
  = (true, FoundOverdueRentals 1)
  ∧ (get_active_rentals Sample.rented).1 = (true, FoundRentals 1)
  ∧ (get_overdue_rentals (Sample.day + 10) Sample.swept).1
    = (true, FoundOverdueRentals 0)
  ∧ (get_active_rentals Sample.swept).1 = (true, FoundRentals 0)
  ∧ (search_rentals None None (Some overdue) Sample.swept).1
    = (true, FoundRentals 1).
Proof. by vm_compute. Qed.

(** ** C10: two attempts on the last copy *)

(** A call that succeeds has passed its checks with the row it read. *)
Lemma rent_movie_success_checks today c m e due s message data s' :
  rent_movie today c m e due s = ((true, message, data), s') →
  ∃ mv, movies s !! m = Some mv
        ∧ rent_checks today c m due s
          = inr (RentLocals (title mv) (stock_quantity mv)
                            (rental_rate mv * (due - today))).
Proof.
  intros Hcall. apply rent_movie_success in Hcall
    as (cu & mv & Hcu & Hactive & Hmv & Havailable & Hstock & Hdue & _).
  exists mv. split; [done|]. unfold rent_checks.
  rewrite Hcu, Hactive, Hmv, Havailable. simpl.
  rewrite bool_decide_eq_false_2 by lia.
  by rewrite bool_decide_eq_false_2 by lia.
Qed.

(** The transaction goes through whenever the server accepts its two
    statements, whatever the stock of the movie is by then. *)
Lemma rent_transaction_accepted today c m e due v s mv :
  is_Some (customers s !! c) → movies s !! m = Some mv → e ∈ employees s →
  decimal_8_2 (local_total_charge v) → sql_int (local_stock_quantity v - 1) →
  rent_transaction today c m e due v s
  = ((true, Rented (local_title v) (local_total_charge v),
      Some (lastrowid (rentals s))),
     Db (customers s)
        (<[m := Movie (title mv) (rental_rate mv) (local_stock_quantity v - 1)
                      (total_copies mv)
                      (bool_decide (0 < local_stock_quantity v - 1))]>
           (movies s))
        (employees s)
        (<[lastrowid (rentals s) :=
             Rental c m e today due None (local_total_charge v) 0 active]>
           (rentals s))
        (returns s)).
Proof.
  intros Hc Hm He Hcharge Hstock.
  unfold rent_transaction, insert_rental, update_movie_stock.
  rewrite decide_True by (rewrite Hm; eauto).
  rewrite decide_True by done. simpl.
  rewrite Hm. by rewrite decide_True by done.
Qed.

(** C10 as it is stated fails.  One copy of Pulp Fiction is left; customers
    1 and 3 ask for it at two desks, and both calls run their checks before
    either runs its transaction.  Both calls succeed, two rentals of the one
    copy are stored, and the stock is written as 0 twice. *)
Lemma overlapped_rents_both_succeed :
  let a := RentArgs 1 4 1 (Sample.day + 7) in
  let b := RentArgs 3 4 1 (Sample.day + 5) in
  stock_of 4 Sample.last_copy = Some 1
  ∧ ∃ s',
      rent_movie_overlapped Sample.day a b Sample.last_copy
      = ((true, Rented "Pulp Fiction" 2093, Some 2),
         (true, Rented "Pulp Fiction" 1495, Some 3), s')
      ∧ movies s' !! 4 = Some (Movie "Pulp Fiction" 299 0 2 false)
      ∧ (rental_status <$> rentals s' !! 2) = Some active
      ∧ (rental_status <$> rentals s' !! 3) = Some active.
Proof.
  cbv zeta. split; [by vm_compute|].
  eexists. split; [by vm_compute|]. by vm_compute.
Qed.

(** C10, amended.  With one copy in stock, two attempts on the same movie,
    each of which would succeed on its own: when the second call starts after
    the first has committed, the first succeeds, the second fails with
    [MovieUnavailable], and the stock ends at 0; when the checks of both calls
    run before either transaction, both succeed and the stock also ends at 0,
    not below. *)
Theorem rent_last_copy today a b s :
  arg_movie_id b = arg_movie_id a →
  stock_of (arg_movie_id a) s = Some 1 →
  (rent_movie today (arg_customer_id a) (arg_movie_id a) (arg_employee_id a)
              (arg_due_date a) s).1.1.1 = true →
  (rent_movie today (arg_customer_id b) (arg_movie_id b) (arg_employee_id b)
              (arg_due_date b) s).1.1.1 = true →
  (∃ message id s',
     rent_movie_in_turn today a b s
     = ((true, message, Some id), (false, MovieUnavailable, None), s')
     ∧ stock_of (arg_movie_id a) s' = Some 0)
  ∧ (∃ message_a id_a message_b id_b s',
       rent_movie_overlapped today a b s
       = ((true, message_a, Some id_a), (true, message_b, Some id_b), s')
       ∧ id_a ≠ id_b
       ∧ stock_of (arg_movie_id a) s' = Some 0).
Proof.
  destruct a as [ca m ea duea], b as [cb mb eb dueb]. simpl.
  intros -> Hone Ha Hb.
  destruct (rent_movie today ca m ea duea s) as [[[oka msga] ida] sa] eqn:Hcalla.
  destruct (rent_movie today cb m eb dueb s) as [[[okb msgb] idb] sb] eqn:Hcallb.
  simpl in Ha, Hb. subst oka okb.
  destruct (rent_movie_success_checks _ _ _ _ _ _ _ _ _ Hcalla)
    as (mv & Hmv & Hchecka).
  destruct (rent_movie_success_checks _ _ _ _ _ _ _ _ _ Hcallb)
    as (mv' & Hmv' & Hcheckb).
  assert (mv' = mv) as -> by congruence.
  assert (Hstock : stock_quantity mv = 1).
  { unfold stock_of in Hone. rewrite Hmv in Hone. by simplify_eq/=. }
  apply rent_movie_success in Hcallb
    as (cub & mvb & Hcub & Hactiveb & Hmvb & _ & _ & _ & Heb & Hchargeb & _).
  assert (mvb = mv) as -> by congruence.
  pose proof Hcalla as Hsa.
  apply rent_movie_success in Hsa
    as (cua & mva & _ & _ & Hmva & _ & _ & _ & _ & _ & -> & -> & ->).
  assert (mva = mv) as -> by congruence.
  split.
  - eexists _, _, _. unfold rent_movie_in_turn. simpl. rewrite Hcalla.
    unfold rent_movie, rent_checks. simpl.
    rewrite Hcub, Hactiveb, lookup_insert_eq. simpl.
    rewrite Hstock. simpl. split; [done|].
    unfold stock_of. simpl. by rewrite lookup_insert_eq.
  - eexists _, _, _, _, _. unfold rent_movie_overlapped. simpl.
    rewrite Hchecka, Hcheckb. simpl.
    unfold rent_movie in Hcalla. rewrite Hchecka in Hcalla. rewrite Hcalla.
    erewrite rent_transaction_accepted; simpl;
      [| by rewrite Hcub | apply lookup_insert_eq | done | done
       | rewrite Hstock; unfold sql_int; lia ].
    split; [done|]. split.
    + pose proof (lastrowid_fresh
        (<[lastrowid (rentals s) :=
             Rental ca m ea today duea None (rental_rate mv * (duea - today))
                    0 active]> (rentals s))) as Hfresh.
      intros Heq. rewrite <- Heq, lookup_insert_eq in Hfresh. done.
    + unfold stock_of. simpl. rewrite lookup_insert_eq. simpl.
      by rewrite Hstock.
Qed.

Lemma rent_last_copy_witness :
  let a := RentArgs 1 4 1 (Sample.day + 7) in
  let b := RentArgs 3 4 1 (Sample.day + 5) in
  stock_of 4 Sample.last_copy = Some 1
  ∧ (rent_movie Sample.day 1 4 1 (Sample.day + 7) Sample.last_copy).1.1.1
    = true
  ∧ (rent_movie Sample.day 3 4 1 (Sample.day + 5) Sample.last_copy).1.1.1
    = true
  ∧ (∃ message id s',
       rent_movie_in_turn Sample.day a b Sample.last_copy
       = ((true, message, Some id), (false, MovieUnavailable, None), s')
       ∧ stock_of 4 s' = Some 0)
  ∧ (∃ message_a id_a message_b id_b s',
       rent_movie_overlapped Sample.day a b Sample.last_copy
       = ((true, message_a, Some id_a), (true, message_b, Some id_b), s')
       ∧ id_a ≠ id_b
       ∧ stock_of 4 s' = Some 0).
Proof.
  cbv zeta.
  split; [vm_compute; reflexivity|].
  split; [vm_compute; reflexivity|].
  split; [vm_compute; reflexivity|].
  apply (rent_last_copy Sample.day (RentArgs 1 4 1 (Sample.day + 7))
           (RentArgs 3 4 1 (Sample.day + 5)) Sample.last_copy).
  - reflexivity.
  - vm_compute. reflexivity.
  - vm_compute. reflexivity.
  - vm_compute. reflexivity.
Defined.

(** * Further properties *)

(** ** Calls that succeed *)

(** X1.  [rent_movie] succeeds exactly when the customer exists and is
    active, the movie exists, is flagged available and has stock, the due
    date is after today, the employee exists, and the charge and the new
    stock fit their columns; so a charge above 999999.99 or an unknown
    employee fails the call after its four checks have passed. *)
Theorem rent_movie_succeeds_iff today c m e due s :
  (rent_movie today c m e due s).1.1.1 = true ↔
  ∃ cu mv,
    customers s !! c = Some cu ∧ is_active cu = true ∧
    movies s !! m = Some mv ∧ is_available mv = true ∧
    0 < stock_quantity mv ∧ today < due ∧ e ∈ employees s ∧
    decimal_8_2 (rental_rate mv * (due - today)) ∧
    sql_int (stock_quantity mv - 1).
Proof.
  split.
  - unfold rent_movie, rent_checks. intros H.
    destruct (customers s !! c) as [cu|] eqn:Hcu; [|discriminate].
    destruct (is_active cu) eqn:Hactive; [|discriminate].
    destruct (movies s !! m) as [mv|] eqn:Hmv; [|discriminate].
    destruct (is_available mv) eqn:Havailable; [|discriminate].
    cbn [negb orb] in H. case_bool_decide as Hstock; [discriminate|].
    cbv zeta in H. case_bool_decide as Hdue; [discriminate|].
    unfold rent_transaction, insert_rental in H.
    cbn [local_total_charge] in H.
    destruct (decide _) as [(_ & _ & He)|] in H; [|discriminate].
    destruct (decide _) as [Hcharge|] in H; [|discriminate].
    unfold update_movie_stock in H.
    cbn [set_rentals movies local_stock_quantity] in H. rewrite Hmv in H.
    destruct (decide _) as [Hint|] in H; [|discriminate].
    exists cu, mv. repeat split; first [done | lia | apply Hcharge | apply Hint].
  - intros (cu & mv & Hcu & Hactive & Hmv & Havailable & Hstock & Hdue & He
            & Hcharge & Hint).
    unfold rent_movie, rent_checks.
    rewrite Hcu, Hactive, Hmv, Havailable. cbn [negb orb].
    rewrite bool_decide_eq_false_2 by lia. cbv zeta.
    rewrite bool_decide_eq_false_2 by lia.
    by erewrite rent_transaction_accepted by (by eauto).
Qed.

(** X3.  A successful [rent_movie] stores one new rental, in status
    [active] with no late fee and no return date, under an id that was not in
    use and is larger than every id in use; the rentals that were there, the
    [returns] rows, the customers and the employees are as they were. *)
Theorem rent_movie_new_rental today c m e due s message rid s' :
  rent_movie today c m e due s = ((true, message, Some rid), s') →
  rentals s !! rid = None
  ∧ (∃ charge, rentals s' !! rid
               = Some (Rental c m e today due None charge 0 active))
  ∧ (∀ k r, rentals s !! k = Some r → k < rid ∧ rentals s' !! k = Some r)
  ∧ size (rentals s') = S (size (rentals s))
  ∧ returns s' = returns s
  ∧ customers s' = customers s
  ∧ employees s' = employees s.
Proof.
  intros Hcall. apply rent_movie_success in Hcall
    as (cu & mv & _ & _ & _ & _ & _ & _ & _ & _ & _ & [= ->] & ->).
  pose proof (lastrowid_fresh (rentals s)) as Hfresh. simpl.
  split; [done|]. split; [eexists; apply lookup_insert_eq|].
  split; [|split; [by apply map_size_insert_None|done]].
  intros k r Hk. pose proof (max_rental_id_bound _ _ _ Hk) as Hle.
  unfold lastrowid. split; [lia|].
  rewrite lookup_insert_ne; [done|]. unfold lastrowid. lia.
Qed.

Lemma rent_movie_new_rental_witness :
  let call := rent_movie Sample.day 2 4 1 (Sample.day + 3) Sample.rented in
  call.1 = (true, Rented "Pulp Fiction" 897, Some 2)
  ∧ rentals Sample.rented !! 2 = None
  ∧ (∃ charge, rentals call.2 !! 2
               = Some (Rental 2 4 1 Sample.day (Sample.day + 3) None charge 0
                              active))
  ∧ (∀ k r, rentals Sample.rented !! k = Some r →
            k < 2 ∧ rentals call.2 !! k = Some r)
  ∧ size (rentals call.2) = S (size (rentals Sample.rented))
  ∧ returns call.2 = returns Sample.rented
  ∧ customers call.2 = customers Sample.rented
  ∧ employees call.2 = employees Sample.rented.
Proof.
  cbv zeta. split; [vm_compute; reflexivity|].
  apply (rent_movie_new_rental Sample.day 2 4 1 (Sample.day + 3) Sample.rented
           (Rented "Pulp Fiction" 897) 2).
  vm_compute. reflexivity.
Defined.

(** X5.  A successful [return_movie] on or before the due date charges no
    late fee: zero late days, [total_paid] is the original charge, and the
    message is the on-time one.  After the due date the late days are the
    days since the due date, the fee is that many times the daily rate, and
    the message is the late one. *)
Theorem return_movie_on_time_or_late self today rid e s message data s' r :
  return_movie self today rid e s = ((true, message, Some data), s') →
  rentals s !! rid = Some r →
  (today ≤ due_date r →
     data_late_days data = 0 ∧ data_late_fee data = 0
     ∧ data_total_paid data = total_charge r
     ∧ message = ReturnedOnTime (data_movie_title data) (total_charge r))
  ∧ (due_date r < today →
     data_late_days data = today - due_date r
     ∧ data_late_fee data = (today - due_date r) * late_fee_per_day self
     ∧ data_total_paid data = total_charge r + data_late_fee data
     ∧ message = ReturnedLate (data_movie_title data) (data_late_days data)
                              (data_late_fee data) (data_total_paid data)).
Proof.
  intros Hcall Hr. apply return_movie_success in Hcall
    as (r' & mv & Hr' & _ & _ & _ & _ & [= ->] & -> & _).
  assert (r' = r) as -> by congruence. simpl. split; intros Hdue.
  - rewrite Z.max_l by lia. rewrite bool_decide_eq_false_2 by lia.
    simpl. rewrite Z.add_0_r. done.
  - rewrite Z.max_r by lia. rewrite bool_decide_eq_true_2 by lia. done.
Qed.

Lemma return_movie_on_time_or_late_witness :
  let r := Rental 1 1 1 Sample.day (Sample.day + 7) None 2093 0 active in
  let call := return_movie __init__ (Sample.day + 7) 1 1 Sample.rented in
  let data := ReturnData 1 "The Shawshank Redemption" (Sample.day + 7) 0 0
                         2093 2093 in
  let message := ReturnedOnTime "The Shawshank Redemption" 2093 in
  call.1 = (true, message, Some data)
  ∧ rentals Sample.rented !! 1 = Some r
  ∧ (Sample.day + 7 ≤ due_date r →
       data_late_days data = 0 ∧ data_late_fee data = 0
       ∧ data_total_paid data = total_charge r
       ∧ message = ReturnedOnTime (data_movie_title data) (total_charge r))
  ∧ (due_date r < Sample.day + 7 →
       data_late_days data = Sample.day + 7 - due_date r
       ∧ data_late_fee data
         = (Sample.day + 7 - due_date r) * late_fee_per_day __init__
       ∧ data_total_paid data = total_charge r + data_late_fee data
       ∧ message = ReturnedLate (data_movie_title data) (data_late_days data)
                                (data_late_fee data) (data_total_paid data)).
Proof.
  cbv zeta. split; [vm_compute; reflexivity|].
  split; [vm_compute; reflexivity|].
  apply (return_movie_on_time_or_late __init__ (Sample.day + 7) 1 1
           Sample.rented _ _ (return_movie __init__ (Sample.day + 7) 1 1
                                Sample.rented).2).
  - vm_compute. reflexivity.
  - vm_compute. reflexivity.
Defined.

Lemma calculate_late_fee_previews_return_witness :
  let call := return_movie __init__ (Sample.day + 10) 1 1 Sample.rented in
  let r := Rental 1 1 1 Sample.day (Sample.day + 7) None 2093 0 active in
  let data := ReturnData 1 "The Shawshank Redemption" (Sample.day + 10) 3 600
                         2093 2693 in
  call.1.2 = Some data
  ∧ rentals Sample.rented !! 1 = Some r
  ∧ calculate_late_fee __init__ (Sample.day + 10) (due_date r) None
    = (data_late_days data, data_late_fee data).
Proof.
  cbv zeta. split; [vm_compute; reflexivity|].
  split; [vm_compute; reflexivity|].
  apply (calculate_late_fee_previews_return __init__ (Sample.day + 10) 1 1
           Sample.rented
           (ReturnedLate "The Shawshank Redemption" 3 600 2693) _
           (return_movie __init__ (Sample.day + 10) 1 1 Sample.rented).2).
  - vm_compute. reflexivity.
  - vm_compute. reflexivity.
Defined.

(** X6.  With a daily rate that is not negative, the late days and the late
    fee of [calculate_late_fee] are not negative, the fee is zero for a return
    on or before the due date, and from the due date on each further day adds
    one day and one daily rate. *)
Theorem calculate_late_fee_by_day self today due_date return_date :
  0 ≤ late_fee_per_day self →
  let fee := calculate_late_fee self today due_date (Some return_date) in
  0 ≤ fee.1 ∧ 0 ≤ fee.2
  ∧ (return_date ≤ due_date → fee = (0, 0))
  ∧ (due_date ≤ return_date →
     calculate_late_fee self today due_date (Some (return_date + 1))
     = (fee.1 + 1, fee.2 + late_fee_per_day self)).
Proof.
  intros Hrate. unfold calculate_late_fee. simpl.
  split; [lia|]. split; [nia|]. split; intros Hdate.
  - by rewrite Z.max_l by lia.
  - rewrite !Z.max_r by lia. f_equal; lia.
Qed.

Lemma calculate_late_fee_by_day_witness :
  let due := Calendar.ymd2ord 2024 1 10 in
  let day := Calendar.ymd2ord 2024 1 15 in
  let fee := calculate_late_fee __init__ Sample.day due (Some day) in
  0 ≤ late_fee_per_day __init__
  ∧ fee = (5, 1000)
  ∧ 0 ≤ fee.1 ∧ 0 ≤ fee.2
  ∧ (day ≤ due → fee = (0, 0))
  ∧ (due ≤ day →
     calculate_late_fee __init__ Sample.day due (Some (day + 1))
     = (fee.1 + 1, fee.2 + late_fee_per_day __init__)).
Proof.
  cbv zeta. split; [vm_compute; discriminate|]. split; [reflexivity|].
  apply (calculate_late_fee_by_day __init__ Sample.day
           (Calendar.ymd2ord 2024 1 10) (Calendar.ymd2ord 2024 1 15)).
  vm_compute. discriminate.
Defined.

Lemma binary64_agrees_witness :
  (0 ≤ 2093 < 2200 ∧ 0 ≤ 3 < 4)
  ∧ Binary64.to_decimal (Binary64.late_fee 3) = 3 * late_fee_per_day __init__
  ∧ Binary64.to_decimal (Binary64.total_paid 2093 3)
    = 2093 + 3 * late_fee_per_day __init__.
Proof.
  split; [lia|]. apply (binary64_agrees 2093 3); lia.
Defined.

(** X7.  Renting a movie and returning that rental puts the [movies] table
    back as it was: the stock is the stock before, and the movie, which was
    available when it was rented, is available again.  The rental stays, in
    status [returned], with one [returns] row added. *)
Theorem rent_then_return_restores_movies self day1 day2 c m e e' due s
    message1 rid s1 message2 data s2 :
  rent_movie day1 c m e due s = ((true, message1, Some rid), s1) →
  return_movie self day2 rid e' s1 = ((true, message2, data), s2) →
  movies s2 = movies s
  ∧ customers s2 = customers s
  ∧ (rental_status <$> rentals s2 !! rid) = Some returned
  ∧ length (returns s2) = S (length (returns s)).
Proof.
  intros Hrent Hreturn. apply rent_movie_success in Hrent
    as (cu & mv & _ & _ & Hmv & Havailable & _ & _ & _ & _ & _ & [= ->] & ->).
  apply return_movie_success in Hreturn
    as (r & mv' & Hr & _ & Hmv' & _ & _ & _ & _ & ->).
  simpl in Hr, Hmv'. rewrite lookup_insert_eq in Hr. simplify_eq/=.
  rewrite lookup_insert_eq in Hmv'. simplify_eq/=.
  split; [|split; [done|split]].
  - rewrite insert_insert_eq. apply insert_id.
    rewrite Hmv. f_equal. destruct mv; simpl in *. subst. f_equal. lia.
  - by rewrite lookup_insert_eq.
  - rewrite length_app. simpl. lia.
Qed.

Lemma rent_then_return_restores_movies_witness :
  let call1 := rent_movie Sample.day 1 1 1 (Sample.day + 7) Sample.store in
  let call2 := return_movie __init__ (Sample.day + 10) 1 1 call1.2 in
  call1.1 = (true, Rented "The Shawshank Redemption" 2093, Some 1)
  ∧ call2.1.1.1 = true
  ∧ movies call2.2 = movies Sample.store
  ∧ customers call2.2 = customers Sample.store
  ∧ (rental_status <$> rentals call2.2 !! 1) = Some returned
  ∧ length (returns call2.2) = S (length (returns Sample.store)).
Proof.
  cbv zeta. split; [vm_compute; reflexivity|].
  split; [vm_compute; reflexivity|].
  apply (rent_then_return_restores_movies __init__ Sample.day (Sample.day + 10)
           1 1 1 1 (Sample.day + 7) Sample.store
           (Rented "The Shawshank Redemption" 2093) 1
           (rent_movie Sample.day 1 1 1 (Sample.day + 7) Sample.store).2
           (return_movie __init__ (Sample.day + 10) 1 1 Sample.rented).1.1.2
           (return_movie __init__ (Sample.day + 10) 1 1 Sample.rented).1.2).
  - vm_compute. reflexivity.
  - vm_compute. reflexivity.
Defined.

(** ** One call of the three models *)

Lemma no_outstanding_rentals (P : rental → Prop) `{!∀ r, Decision (P r)}
    (t : gmap Z rental) :
  ¬ 0 < Z.of_nat (size (filter (λ kr : Z * rental,
                                  P kr.2 ∧ outstanding kr.2) t)) →
  ∀ k r, t !! k = Some r → P r → rental_status r = returned.
Proof.
  intros Hnone k r Hk HP.
  destruct (decide (outstanding r)) as [Hout|Hout].
  - exfalso. apply Hnone.
    assert (filter (λ kr : Z * rental, P kr.2 ∧ outstanding kr.2) t !! k
            = Some r) as Hin by (by apply map_lookup_filter_Some).
    assert (size (filter (λ kr : Z * rental, P kr.2 ∧ outstanding kr.2) t)
            ≠ 0%nat) as Hsize.
    { intros Hzero. apply map_size_empty_iff in Hzero.
      by rewrite Hzero, lookup_empty in Hin. }
    lia.
  - unfold outstanding in Hout. destruct (rental_status r); tauto.
Qed.

(** Every call is one of the seven steps. *)
Lemma app_after_step self today c s : app_step s (app_after self today c s).
Proof.
  destruct c as [[cid mid eid due | rid eid |] | mid q | mid | cid]; simpl.
  - destruct (rent_movie today cid mid eid due s) as [[[[] message] data] s']
      eqn:Hcall; simpl.
    + apply rent_movie_success in Hcall
        as (cu & mv & Hcu & _ & Hmv & _ & Hstock & _ & He & _ & _ & _ & ->).
      by apply step_rented.
    + apply rent_movie_failure in Hcall as ->. apply step_none.
  - destruct (return_movie self today rid eid s) as [[[[] message] data] s']
      eqn:Hcall; simpl.
    + apply return_movie_success in Hcall
        as (r & mv & Hr & Hactive & Hmv & He & _ & _ & _ & ->).
      by apply step_returned.
    + apply return_movie_failure in Hcall as ->. apply step_none.
  - apply step_swept.
  - unfold update_stock_quantity.
    destruct (movies s !! mid) as [mv|] eqn:Hmv; [|apply step_none].
    destruct (decide (sql_int q)); [|apply step_none].
    destruct (decide (0 ≤ q)); [|apply step_none]. cbv zeta.
    destruct (decide (_ = mv)); [apply step_none|]. simpl.
    by apply step_stock.
  - unfold delete_movie. case_decide; [apply step_none|].
    destruct (movies s !! mid) as [mv|] eqn:Hmv; [|apply step_none].
    case_decide as Hrefs; [apply step_none|]. simpl.
    apply step_movie_deleted. intros k r Hk Hm. apply Hrefs. by exists k, r.
  - unfold delete_customer. case_decide as Hcount; [apply step_none|].
    destruct (customers s !! cid) as [cu|] eqn:Hcu; [|apply step_none].
    destruct (is_active cu); [|apply step_none]. simpl.
    apply step_customer_deactivated; [by rewrite Hcu|].
    intros k r Hk Hc.
    by apply (no_outstanding_rentals (λ r, customer_id r = cid) (rentals s)
                Hcount k r).
Qed.

(** ** What every sequence of calls keeps *)

Lemma movies_consistent_step s s' :
  movies_consistent s → app_step s s' → movies_consistent s'.
Proof.
  intros Hs Hstep.
  destruct Hstep as [ | c m e today due mv charge _ Hmv _ Hstock
                      | rid e today r mv fee _ _ Hmv _ | today
                      | m q mv Hmv Hq | m _ | c _ _ ]; try done.
  - apply map_Forall_insert_2; [|done]. by apply movie_consistent_rented.
  - apply map_Forall_insert_2; [|done].
    apply movie_consistent_returned. by destruct (Hs _ _ Hmv).
  - apply map_Forall_insert_2; [|done].
    split; simpl; [done|]. apply bool_decide_spec.
  - by apply map_Forall_delete.
Qed.

(** X8.  Stock and availability agree after any sequence of calls of the
    three models, not of the rental model alone: [update_stock_quantity]
    writes the flag as [new_quantity > 0] and cannot store a negative stock,
    and [delete_movie] and [delete_customer] write no stock. *)
Theorem stock_and_availability_agree_app self s0 s id m :
  movies_consistent s0 → app_reachable self s0 s → movies s !! id = Some m →
  0 ≤ stock_quantity m ∧ (is_available m = true ↔ 0 < stock_quantity m).
Proof.
  intros Hs0 Hreach.
  assert (Hs : movies_consistent s).
  { induction Hreach as [|s today c _ IH]; [done|].
    eapply movies_consistent_step; [apply IH|apply app_after_step]. }
  intros Hm. destruct (Hs id m Hm) as [Hge Hiff].
  split; [done|]. by rewrite <- Hiff, Is_true_true.
Qed.

Lemma stock_and_availability_agree_app_witness :
  let s := app_after __init__ (Sample.day + 1) (stock_update 4 0)
             (app_after __init__ Sample.day
                (rental_model_call (rent 1 1 1 (Sample.day + 7)))
                Sample.store) in
  let m := Movie "Pulp Fiction" 299 0 2 false in
  movies_consistent Sample.store
  ∧ movies s !! 4 = Some m
  ∧ 0 ≤ stock_quantity m ∧ (is_available m = true ↔ 0 < stock_quantity m).
Proof.
  cbv zeta.
  assert (H0 : movies_consistent Sample.store)
    by (apply (bool_decide_unpack _); vm_compute; exact I).
  split; [exact H0|]. split; [vm_compute; reflexivity|].
  apply (stock_and_availability_agree_app __init__ Sample.store
           (app_after __init__ (Sample.day + 1) (stock_update 4 0)
              (app_after __init__ Sample.day
                 (rental_model_call (rent 1 1 1 (Sample.day + 7)))
                 Sample.store))
           4).
  - exact H0.
  - apply app_reachable_call, app_reachable_call, app_reachable_start.
  - vm_compute. reflexivity.
Defined.

Lemma joined_kept s s' r r' :
  customer_id r' = customer_id r → movie_id r' = movie_id r →
  employee_id r' = employee_id r →
  (is_Some (customers s !! customer_id r) →
   is_Some (customers s' !! customer_id r)) →
  (is_Some (movies s !! movie_id r) → is_Some (movies s' !! movie_id r)) →
  employees s' = employees s →
  joined s r → joined s' r'.
Proof.
  unfold joined. intros -> -> -> Hc Hm -> (? & ? & ?). auto.
Qed.

Lemma is_Some_insert_kept {A} (t : gmap Z A) k x j :
  is_Some (t !! j) → is_Some (<[k:=x]> t !! j).
Proof.
  intros Hj. destruct (decide (k = j)) as [->|Hne].
  - rewrite lookup_insert_eq. by eexists.
  - by rewrite lookup_insert_ne.
Qed.

Lemma referential_integrity_step s s' :
  referential_integrity s → app_step s s' → referential_integrity s'.
Proof.
  intros [Hrentals Hreturns] Hstep.
  destruct Hstep as [ | c m e today due mv charge Hc Hmv He _
                      | rid e today r mv fee Hr _ Hmv He | today
                      | m q mv Hmv _ | m Hrefs | c Hc _ ]; [done|..].
  - split; simpl.
    + apply map_Forall_insert_2.
      * unfold joined. simpl. rewrite lookup_insert_eq. eauto.
      * intros k r Hk. apply (joined_kept s _ r r); try done.
        -- apply is_Some_insert_kept.
        -- apply (Hrentals k r Hk).
    + eapply Forall_impl; [exact Hreturns|].
      intros row [Hrow ?]. split; [|done]. by apply is_Some_insert_kept.
  - split; simpl.
    + apply map_Forall_insert_2.
      * apply (joined_kept s _ r); try done.
        -- apply is_Some_insert_kept.
        -- apply (Hrentals rid r Hr).
      * intros k r0 Hk. apply (joined_kept s _ r0 r0); try done.
        -- apply is_Some_insert_kept.
        -- apply (Hrentals k r0 Hk).
    + apply Forall_app. split.
      * eapply Forall_impl; [exact Hreturns|].
        intros row [Hrow ?]. split; [|done]. by apply is_Some_insert_kept.
      * apply Forall_singleton. split; simpl; [|done].
        rewrite lookup_insert_eq. by eexists.
  - split; simpl.
    + intros k r Hk. apply lookup_fmap_Some in Hk as (r0 & <- & Hk).
      apply (joined_kept s _ r0); try done.
      * unfold promote_row. by case_decide.
      * unfold promote_row. by case_decide.
      * unfold promote_row. by case_decide.
      * apply (Hrentals k r0 Hk).
    + eapply Forall_impl; [exact Hreturns|].
      intros row [[r Hrow] ?]. split; [|done]. simpl.
      rewrite lookup_fmap, Hrow. by eexists.
  - split; simpl; [|done].
    intros k r Hk. apply (joined_kept s _ r r); try done.
    + apply is_Some_insert_kept.
    + apply (Hrentals k r Hk).
  - split; simpl; [|done].
    intros k r Hk. apply (joined_kept s _ r r); try done.
    + simpl. rewrite lookup_delete_ne; [done|].
      intros Heq. by apply (Hrefs k r Hk).
    + apply (Hrentals k r Hk).
  - split; simpl; [|done].
    intros k r Hk. apply (joined_kept s _ r r); try done.
    + apply is_Some_insert_kept.
    + apply (Hrentals k r Hk).
Qed.

Lemma referential_integrity_reachable self s0 s :
  referential_integrity s0 → app_reachable self s0 s →
  referential_integrity s.
Proof.
  intros Hs0 Hreach. induction Hreach as [|s today c _ IH]; [done|].
  eapply referential_integrity_step; [apply IH|apply app_after_step].
Qed.



Lemma return_recorded_kept s s' row :
  (∀ r, rentals s !! ret_rental_id row = Some r → rental_status r = returned →
        rentals s' !! ret_rental_id row = Some r) →
  return_recorded s row → return_recorded s' row.
Proof.
  unfold return_recorded. intros Hkept Hrow.
  destruct (rentals s !! ret_rental_id row) as [r|] eqn:Hr; [|done].
  by rewrite (Hkept r eq_refl (proj1 Hrow)).
Qed.

Lemma return_recorded_returned s row :
  return_recorded s row →
  ∃ r, rentals s !! ret_rental_id row = Some r ∧ rental_status r = returned.
Proof.
  unfold return_recorded. destruct (rentals s !! ret_rental_id row) as [r|];
    [|done]. intros [? _]. by exists r.
Qed.

Lemma promote_row_returned today r :
  rental_status (promote_row today r) = returned ↔ rental_status r = returned.
Proof.
  unfold promote_row, past_due. case_decide as H; [|done]. simpl.
  destruct H as [-> _]. done.
Qed.

Lemma ledger_consistent_step s s' :
  ledger_consistent s → app_step s s' → ledger_consistent s'.
Proof.
  intros (Hrows & Hnodup & Hall) Hstep.
  destruct Hstep as [ | c m e today due mv charge _ _ _ _
                      | rid e today r mv fee Hr Hactive _ _ | today
                      | m q mv _ _ | m _ | c _ _ ]; try done.
  - split; [|split]; simpl; [|done|].
    + eapply Forall_impl; [exact Hrows|]. intros row.
      apply return_recorded_kept. intros r Hrow _. simpl.
      rewrite lookup_insert_ne; [done|]. intros Heq.
      by rewrite <- Heq, lastrowid_fresh in Hrow.
    + apply map_Forall_insert_2; [done|]. exact Hall.
  - assert (Hnew : rid ∉ ret_rental_id <$> returns s).
    { intros Hin. apply list_elem_of_fmap in Hin as (row & -> & Hin).
      rewrite Forall_forall in Hrows.
      destruct (return_recorded_returned s row (Hrows row Hin))
        as (r' & Hr' & Hreturned). congruence. }
    split; [|split]; simpl.
    + apply Forall_app. split.
      * rewrite Forall_forall in Hrows. apply Forall_forall. intros row Hin.
        apply (return_recorded_kept s); [|by apply Hrows].
        intros r' Hrow _. simpl. rewrite lookup_insert_ne; [done|].
        intros ->. apply Hnew, list_elem_of_fmap. by exists row.
      * apply Forall_singleton. unfold return_recorded. simpl.
        by rewrite lookup_insert_eq.
    + rewrite fmap_app. apply NoDup_app. split; [done|]. split.
      * intros x Hx Hx'. simpl in Hx'. apply list_elem_of_singleton in Hx'.
        by subst x.
      * simpl. apply NoDup_singleton.
    + rewrite fmap_app. simpl. apply map_Forall_insert_2.
      * intros _. apply elem_of_app. right. by apply list_elem_of_singleton.
      * intros k r' Hk Hreturned. apply elem_of_app. left.
        by apply (Hall k r' Hk).
  - split; [|split]; simpl; [|done|].
    + eapply Forall_impl; [exact Hrows|]. intros row.
      apply return_recorded_kept. intros r Hrow Hreturned. simpl.
      rewrite lookup_fmap, Hrow. simpl. f_equal.
      apply promote_row_other. unfold past_due. intros [? _]. congruence.
    + intros k r Hk Hreturned.
      apply lookup_fmap_Some in Hk as (r0 & <- & Hk).
      apply promote_row_returned in Hreturned. by apply (Hall k r0 Hk).
Qed.



Lemma rental_kept_step s s' k r :
  app_step s s' → rentals s !! k = Some r →
  ∃ r', rentals s' !! k = Some r' ∧ same_booking r r'
        ∧ (rental_status r ≠ active → r' = r).
Proof.
  intros Hstep Hk.
  destruct Hstep as [ | c m e today due mv charge _ _ _ _
                      | rid e today r0 mv fee Hr Hactive _ _ | today
                      | m q mv _ _ | m _ | c _ _ ];
    try (exists r; by repeat split).
  - exists r. simpl. rewrite lookup_insert_ne; [by repeat split|].
    intros Heq. by rewrite <- Heq, lastrowid_fresh in Hk.
  - simpl. destruct (decide (rid = k)) as [->|Hne].
    + assert (r0 = r) as -> by congruence. rewrite lookup_insert_eq.
      eexists. split; [done|]. by repeat split.
    + rewrite lookup_insert_ne by done. exists r. by repeat split.
  - exists (promote_row today r). simpl. rewrite lookup_fmap, Hk.
    split; [done|]. unfold promote_row, past_due.
    case_decide as Hpast; [|by repeat split].
    split; [by repeat split|]. intros Hstatus. by destruct Hpast.
Qed.

Lemma rental_kept_reachable self s0 s k r :
  app_reachable self s0 s → rentals s0 !! k = Some r →
  ∃ r', rentals s !! k = Some r' ∧ same_booking r r'
        ∧ (rental_status r ≠ active → r' = r).
Proof.
  intros Hreach Hk.
  induction Hreach as [|s today c _ IH]; [exists r; by repeat split|].
  destruct IH as (r1 & Hk1 & (? & ? & ? & ? & ? & ?) & Hfrozen1).
  destruct (rental_kept_step s _ k r1 (app_after_step self today c s) Hk1)
    as (r2 & Hk2 & (? & ? & ? & ? & ? & ?) & Hfrozen2).
  exists r2. split; [done|]. split; [repeat split; congruence|].
  intros Hstatus. rewrite <- (Hfrozen1 Hstatus). apply Hfrozen2.
  by rewrite (Hfrozen1 Hstatus).
Qed.



(** ** Reports *)

Lemma overdue_report_rows today s id r d :
  (id, r, d) ∈ (get_overdue_rentals today s).2 ↔
  rentals s !! id = Some r ∧ joined s r ∧ past_due today r
  ∧ d = today - due_date r.
Proof.
  unfold get_overdue_rentals. simpl. rewrite list_elem_of_fmap. split.
  - intros ([id' r'] & Heq & Hin). simpl in Heq. simplify_eq.
    rewrite merge_sort_Permutation, elem_of_map_to_list in Hin.
    apply map_lookup_filter_Some in Hin as (Hk & Hjoined & Hpast).
    done.
  - intros (Hk & Hjoined & Hpast & ->). exists (id, r). split; [done|].
    rewrite merge_sort_Permutation, elem_of_map_to_list.
    by apply map_lookup_filter_Some.
Qed.

Lemma active_list_rows s id r :
  (id, r) ∈ (get_active_rentals s).2 ↔
  rentals s !! id = Some r ∧ joined s r ∧ rental_status r = active.
Proof.
  unfold get_active_rentals, search_rentals. simpl.
  rewrite merge_sort_Permutation, elem_of_map_to_list, map_lookup_filter_Some.
  simpl. tauto.
Qed.

(** X12.  The overdue report lists a rental exactly when it is in status
    [active], is due before today and has its customer, movie and employee;
    the [days_overdue] of a row is the number of days since the due date and
    is at least 1; the rows come by due date, earliest first; and the count
    in the message is the number of rows. *)
Theorem overdue_report_spec today s :
  let report := get_overdue_rentals today s in
  (∀ id r d,
     (id, r, d) ∈ report.2 ↔
     rentals s !! id = Some r
     ∧ (is_Some (customers s !! customer_id r)
        ∧ is_Some (movies s !! movie_id r) ∧ employee_id r ∈ employees s)
     ∧ rental_status r = active ∧ due_date r < today
     ∧ d = today - due_date r ∧ 1 ≤ d)
  ∧ Sorted (λ a b : Z * rental * Z, due_date a.1.2 ≤ due_date b.1.2) report.2
  ∧ report.1 = (true, FoundOverdueRentals (length report.2)).
Proof.
  cbv zeta. split; [|split; [|done]].
  - intros id r d. rewrite overdue_report_rows. unfold joined, past_due.
    split.
    + intros (? & ? & [? ?] & ->). repeat split; try done; try tauto. lia.
    + intros (? & ? & ? & ? & ? & ?). done.
  - unfold get_overdue_rentals. simpl.
    assert (Hsorted : Sorted due_date_asc
              (merge_sort due_date_asc
                 (map_to_list
                    (filter (λ kr : Z * rental,
                               joined s kr.2 ∧ past_due today kr.2)
                            (rentals s))))).
    { apply (Sorted_merge_sort due_date_asc). }
    revert Hsorted. generalize (merge_sort due_date_asc
      (map_to_list (filter (λ kr : Z * rental,
                              joined s kr.2 ∧ past_due today kr.2)
                           (rentals s)))).
    intros l Hl. induction Hl as [|a l _ IH Hhd]; [constructor|].
    rewrite fmap_cons. constructor; [exact IH|].
    destruct Hhd; constructor. done.
Qed.

(** X13.  Every rental of the overdue report is on the list of active
    rentals, which is the list the return form offers. *)
Theorem overdue_report_within_active_list today s id r d :
  (id, r, d) ∈ (get_overdue_rentals today s).2 →
  (id, r) ∈ (get_active_rentals s).2.
Proof.
  rewrite overdue_report_rows, active_list_rows.
  intros (? & ? & [? _] & _). done.
Qed.

Lemma overdue_report_within_active_list_witness :
  let r := Rental 1 1 1 Sample.day (Sample.day + 7) None 2093 0 active in
  (1, r, 3) ∈ (get_overdue_rentals (Sample.day + 10) Sample.rented).2
  ∧ (1, r) ∈ (get_active_rentals Sample.rented).2.
Proof.
  cbv zeta.
  assert (H0 : (1, Rental 1 1 1 Sample.day (Sample.day + 7) None 2093 0 active,
                3) ∈ (get_overdue_rentals (Sample.day + 10) Sample.rented).2)
    by (vm_compute; apply list_elem_of_here).
  split; [exact H0|].
  apply (overdue_report_within_active_list (Sample.day + 10) Sample.rented 1 _ 3).
  exact H0.
Defined.

(** X14.  A rental on the list of active rentals, which is the list the
    return form offers, is found by [return_movie]: the call does not answer
    "Rental not found or already returned". *)
Theorem listed_rental_is_returnable self today e s id r :
  (id, r) ∈ (get_active_rentals s).2 →
  (∃ mv, select_rental id s = Some (r, mv))
  ∧ (return_movie self today id e s).1.1.2 ≠ RentalNotFound.
Proof.
  rewrite active_list_rows. intros (Hk & (_ & [mv Hmv] & _) & Hactive).
  assert (Hselect : select_rental id s = Some (r, mv)).
  { unfold select_rental. rewrite Hk, decide_True by done. by rewrite Hmv. }
  split; [by exists mv|].
  unfold return_movie. rewrite Hselect. cbv zeta.
  destruct (update_rental_returned _ _ _ _) as [?|s1]; [done|].
  destruct (insert_return _ _) as [?|s2]; [done|].
  destruct (update_movie_stock _ _ _ _) as [?|s3]; [done|].
  simpl. by case_bool_decide.
Qed.

Lemma listed_rental_is_returnable_witness :
  let r := Rental 1 1 1 Sample.day (Sample.day + 7) None 2093 0 active in
  (1, r) ∈ (get_active_rentals Sample.rented).2
  ∧ (∃ mv, select_rental 1 Sample.rented = Some (r, mv))
  ∧ (return_movie __init__ (Sample.day + 1) 1 9 Sample.rented).1.1.2
    ≠ RentalNotFound.
Proof.
  cbv zeta.
  assert (H0 : (1, Rental 1 1 1 Sample.day (Sample.day + 7) None 2093 0 active)
               ∈ (get_active_rentals Sample.rented).2)
    by (vm_compute; apply list_elem_of_here).
  split; [exact H0|].
  apply (listed_rental_is_returnable __init__ (Sample.day + 1) 9 Sample.rented
           1 _ H0).
Defined.


(** X16.  When every rental has its customer, movie and employee, the count
    that [update_overdue_statuses] returns is the number of rows of the
    overdue report before the run, and every rental of that report is, after
    the run, on the list of rentals in status [overdue]. *)
Theorem sweep_moves_the_overdue_report today s :
  referential_integrity s →
  (update_overdue_statuses today s).1.2
  = Z.of_nat (length (get_overdue_rentals today s).2)
  ∧ (∀ id r d,
       (id, r, d) ∈ (get_overdue_rentals today s).2 →
       (id, set_overdue r)
       ∈ (search_rentals None None (Some overdue)
            (update_overdue_statuses today s).2).2).
Proof.
  intros [Hrentals _]. split.
  - unfold update_overdue_statuses, overdue_rowcount, get_overdue_rentals.
    simpl. f_equal.
    rewrite length_fmap, merge_sort_Permutation, length_map_to_list.
    f_equal. apply map_filter_ext. intros k r Hk. simpl.
    pose proof (Hrentals k r Hk). tauto.
  - intros id r d Hrow. apply overdue_report_rows in Hrow
      as (Hk & Hjoined & Hpast & _).
    unfold search_rentals. simpl.
    rewrite merge_sort_Permutation, elem_of_map_to_list.
    apply map_lookup_filter_Some. split.
    + rewrite lookup_fmap, Hk. simpl. by rewrite promote_row_past_due.
    + done.
Qed.

Lemma sweep_moves_the_overdue_report_witness :
  let r := Rental 1 1 1 Sample.day (Sample.day + 7) None 2093 0 active in
  referential_integrity Sample.rented
  ∧ (1, r, 3) ∈ (get_overdue_rentals (Sample.day + 10) Sample.rented).2
  ∧ (update_overdue_statuses (Sample.day + 10) Sample.rented).1.2
    = Z.of_nat (length (get_overdue_rentals (Sample.day + 10) Sample.rented).2)
  ∧ (∀ id r d,
       (id, r, d) ∈ (get_overdue_rentals (Sample.day + 10) Sample.rented).2 →
       (id, set_overdue r)
       ∈ (search_rentals None None (Some overdue)
            (update_overdue_statuses (Sample.day + 10) Sample.rented).2).2).
Proof.
  cbv zeta.
  assert (H0 : referential_integrity Sample.rented)
    by (apply (bool_decide_unpack _); vm_compute; exact I).
  split; [exact H0|].
  split; [vm_compute; apply list_elem_of_here|].
  apply (sweep_moves_the_overdue_report (Sample.day + 10) Sample.rented H0).
Defined.



(** X18.  The overdue sheet of the exporter is refused with "No overdue
    rentals found" exactly when the overdue report is empty, as it is right
    after a run of [update_overdue_statuses]; and every row of the sheet has
    at least one day overdue and the late fee that [calculate_late_fee]
    previews for its rental at the rate that [__init__] sets. *)
Theorem export_overdue_rentals_spec today s :
  let export := export_overdue_rentals today s in
  (export.1 = (false, NoOverdueRentalsFound)
   ↔ (get_overdue_rentals today s).2 = [])
  ∧ length export.2 = length (get_overdue_rentals today s).2
  ∧ (∀ row, row ∈ export.2 →
       1 ≤ sheet_days_overdue row
       ∧ ∃ r, rentals s !! sheet_rental_id row = Some r
              ∧ calculate_late_fee __init__ today (due_date r) None
                = (sheet_days_overdue row, sheet_late_fee row))
  ∧ export_overdue_rentals today (update_overdue_statuses today s).2
    = (false, NoOverdueRentalsFound, []).
Proof.
  cbv zeta. unfold export_overdue_rentals at 1 2 3.
  split; [|split; [|split]].
  - destruct (get_overdue_rentals today s).2; simpl; [done|].
    split; intros; discriminate.
  - destruct (get_overdue_rentals today s).2 as [|x l] eqn:Hl; simpl; [done|].
    by rewrite length_fmap.
  - intros row Hrow.
    assert (Hin : ∃ x, row = overdue_sheet_row_of today x
                       ∧ x ∈ (get_overdue_rentals today s).2).
    { destruct (get_overdue_rentals today s).2 as [|x l] eqn:Hl;
        lazy beta iota in Hrow.
      - by apply elem_of_nil in Hrow.
      - by apply list_elem_of_fmap in Hrow. }
    destruct Hin as ([[id r] d] & -> & Hin).
    apply overdue_report_rows in Hin as (Hk & _ & [_ Hdue] & _).
    unfold overdue_sheet_row_of, calculate_late_fee. simpl.
    split; [lia|]. exists r. split; [done|]. by rewrite Z.max_r by lia.
  - unfold export_overdue_rentals, get_overdue_rentals. simpl.
    rewrite no_past_due_after_sweep by (by intros kr [_ ?]).
    by rewrite map_to_list_empty.
Qed.

Lemma export_overdue_rentals_example :
  export_overdue_rentals (Sample.day + 10) Sample.rented
  = (true, ReportExported, [OverdueSheetRow 1 3 600])
  ∧ export_overdue_rentals (Sample.day + 10) Sample.swept
    = (false, NoOverdueRentalsFound, []).
Proof. by vm_compute. Qed.

(** ** Deleting a movie, deactivating a customer *)

Lemma filter_size_positive (P : Z * rental → Prop) `{!∀ kr, Decision (P kr)}
    (t : gmap Z rental) k r :
  t !! k = Some r → P (k, r) → 0 < Z.of_nat (size (filter P t)).
Proof.
  intros Hk HP.
  assert (filter P t !! k = Some r) as Hin by (by apply map_lookup_filter_Some).
  assert (size (filter P t) ≠ 0%nat) as Hsize.
  { intros Hzero. apply map_size_empty_iff in Hzero.
    by rewrite Hzero, lookup_empty in Hin. }
  lia.
Qed.

(** X19.  [delete_movie] succeeds exactly when the movie exists and no
    rental at all refers to it; it then removes the movie and nothing else,
    and a call that fails changes nothing.  Its own check counts the active
    and overdue rentals only: a movie whose rentals are all returned passes
    the check and is then refused by the foreign key, with the "Failed to
    delete movie" message. *)
Theorem delete_movie_spec id s :
  ((delete_movie id s).1.1 = true ↔
   is_Some (movies s !! id)
   ∧ ∀ k r, rentals s !! k = Some r → movie_id r ≠ id)
  ∧ ((delete_movie id s).1.1 = true →
     (delete_movie id s).2 = set_movies (delete id) s)
  ∧ ((delete_movie id s).1.1 = false → (delete_movie id s).2 = s)
  ∧ (is_Some (movies s !! id) →
     (∃ k r, rentals s !! k = Some r ∧ movie_id r = id) →
     (∀ k r, rentals s !! k = Some r → movie_id r = id →
             rental_status r = returned) →
     delete_movie id s = ((false, DeleteMovieFailed), s)).
Proof.
  unfold delete_movie. split; [|split; [|split]].
  - split.
    + case_decide as Hcount; [discriminate|].
      destruct (movies s !! id) as [mv|] eqn:Hmv; [|discriminate].
      case_decide as Hrefs; [discriminate|]. intros _. split; [by eexists|].
      intros k r Hk Heq. apply Hrefs. by exists k, r.
    + intros [[mv Hmv] Hrefs].
      rewrite decide_False.
      * rewrite Hmv. rewrite decide_False; [done|].
        intros (k & r & Hk & Heq). by apply (Hrefs k r Hk).
      * intros Hcount. unfold movie_active_rentals in Hcount.
        assert (size (filter (λ kr : Z * rental,
                                movie_id kr.2 = id ∧ outstanding kr.2)
                             (rentals s)) ≠ 0%nat) as Hsize by lia.
        apply map_size_ne_0_lookup in Hsize as (k & [r Hin]).
        apply map_lookup_filter_Some in Hin as (Hk & Heq & _).
        by apply (Hrefs k r Hk).
  - case_decide; [discriminate|].
    destruct (movies s !! id); [|discriminate]. by case_decide.
  - case_decide; [done|].
    destruct (movies s !! id); [|done]. by case_decide.
  - intros [mv Hmv] (k & r & Hk & Heq) Hreturned.
    rewrite decide_False.
    + rewrite Hmv. rewrite decide_True; [done|]. by exists k, r.
    + intros Hcount. unfold movie_active_rentals in Hcount.
      assert (size (filter (λ kr : Z * rental,
                              movie_id kr.2 = id ∧ outstanding kr.2)
                           (rentals s)) ≠ 0%nat) as Hsize by lia.
      apply map_size_ne_0_lookup in Hsize as (k' & [r' Hin]).
      apply map_lookup_filter_Some in Hin as (Hk' & Heq' & Hout).
      simpl in Heq', Hout. specialize (Hreturned k' r' Hk' Heq').
      unfold outstanding in Hout. rewrite Hreturned in Hout.
      destruct Hout; discriminate.
Qed.

(** A movie that was rented and returned, one that is out, and one that was
    never rented. *)
Example delete_movie_examples :
  let back := (return_movie __init__ (Sample.day + 1) 1 1 Sample.rented).2 in
  delete_movie 1 back = ((false, DeleteMovieFailed), back)
  ∧ delete_movie 1 Sample.rented
    = ((false, MovieHasRentals 1), Sample.rented)
  ∧ (delete_movie 2 Sample.rented).1 = (true, MovieDeleted)
  ∧ movies (delete_movie 2 Sample.rented).2 !! 2 = None
  ∧ delete_movie 9 Sample.rented
    = ((false, DeleteMovieNotFound), Sample.rented).
Proof. by vm_compute. Qed.




Example delete_customer_examples :
  delete_customer 1 Sample.rented
  = ((false, CustomerHasRentals 1), Sample.rented)
  ∧ (delete_customer 3 Sample.rented).1 = (true, CustomerDeactivated)
  ∧ (rent_movie Sample.day 3 4 1 (Sample.day + 2)
       (delete_customer 3 Sample.rented).2).1
    = (false, CustomerInactive, None)
  ∧ delete_customer 9 Sample.rented
    = ((false, DeleteCustomerNotFound), Sample.rented).
Proof. by vm_compute. Qed.



(** ** The rent form *)

(** X24.  The charge that the rent form previews is not the charge that
    [rent_movie] stores, unless the clock is at midnight: the form takes the
    days of the due date's midnight less now, which is one day less than the
    days between the two dates.  For a rental that [rent_movie] accepts, the
    form shows "Due date must be in the future" when the due date is
    tomorrow, and otherwise a period one day shorter and a charge one daily
    rate lower than the stored ones. *)
Theorem rent_form_preview_is_a_day_short today time_of_day c m e due s
    title charge rid s' :
  0 < time_of_day < microseconds_per_day →
  rent_movie today c m e due s = ((true, Rented title charge, Some rid), s') →
  ∃ mv, movies s !! m = Some mv
        ∧ charge = rental_rate mv * (due - today)
        ∧ update_rental_info today time_of_day m due s
          = if decide (due = today + 1) then DueDateNotInFuture
            else RentalDetails title (rental_rate mv) (due - today - 1)
                               (charge - rental_rate mv).
Proof.
  intros Htime Hcall. apply rent_movie_success in Hcall
    as (cu & mv & _ & _ & Hmv & _ & _ & Hdue & _ & _ & [= -> ->] & _ & _).
  exists mv. split; [done|]. split; [done|].
  unfold update_rental_info, get_movie_by_id. rewrite Hmv. cbv zeta.
  assert (Hdays : (due * microseconds_per_day
                   - (today * microseconds_per_day + time_of_day))
                  / microseconds_per_day = due - today - 1).
  { symmetry.
    apply (Z.div_unique_pos _ _ _ (microseconds_per_day - time_of_day));
      unfold microseconds_per_day in *; lia. }
  rewrite Hdays. case_decide as Htomorrow.
  - by rewrite bool_decide_eq_false_2 by lia.
  - rewrite bool_decide_eq_true_2 by lia. f_equal. lia.
Qed.

Lemma rent_form_preview_is_a_day_short_witness :
  let noon := 43200000000 in
  (0 < noon < microseconds_per_day)
  ∧ (rent_movie Sample.day 1 1 1 (Sample.day + 7) Sample.store).1
    = (true, Rented "The Shawshank Redemption" 2093, Some 1)
  ∧ ∃ mv, movies Sample.store !! 1 = Some mv
          ∧ 2093 = rental_rate mv * (Sample.day + 7 - Sample.day)
          ∧ update_rental_info Sample.day noon 1 (Sample.day + 7) Sample.store
            = if decide (Sample.day + 7 = Sample.day + 1)
              then DueDateNotInFuture
              else RentalDetails "The Shawshank Redemption" (rental_rate mv)
                                 (Sample.day + 7 - Sample.day - 1)
                                 (2093 - rental_rate mv).
Proof.
  cbv zeta. split; [vm_compute; split; reflexivity|].
  split; [vm_compute; reflexivity|].
  apply (rent_form_preview_is_a_day_short Sample.day 43200000000 1 1 1
           (Sample.day + 7) Sample.store "The Shawshank Redemption" 2093 1
           (rent_movie Sample.day 1 1 1 (Sample.day + 7) Sample.store).2).
  - vm_compute. split; reflexivity.
  - vm_compute. reflexivity.
Defined.

(** At noon, for a week and for one day; and at midnight. *)
Example rent_form_previews :
  update_rental_info Sample.day 43200000000 1 (Sample.day + 7) Sample.store
  = RentalDetails "The Shawshank Redemption" 299 6 1794
  ∧ update_rental_info Sample.day 43200000000 1 (Sample.day + 1) Sample.store
    = DueDateNotInFuture
  ∧ (rent_movie Sample.day 1 1 1 (Sample.day + 1) Sample.store).1
    = (true, Rented "The Shawshank Redemption" 299, Some 1)
  ∧ update_rental_info Sample.day 0 1 (Sample.day + 7) Sample.store
    = RentalDetails "The Shawshank Redemption" 299 7 2093.
Proof. by vm_compute. Qed.
